(** * Report-content pipeline of the CleverProfits portal

    A shallow embedding of the three core components of the portal:

    - the sheet extractor [extractCoreSheets] of [src/src/lib/excel.ts];
    - the section parser [parseReportSections] of the report-generation
      route ([src/unnamed/part_009]);
    - the special-block extractor [parseSpecialSections] and the row and
      cell classifiers of [src/src/components/report-section.tsx] and
      [src/src/lib/excel.ts].

    JavaScript strings are sequences of UTF-16 code units; they are modelled
    as [list Z].  String literals of the source are written with [js], which
    decodes the UTF-8 bytes of a Rocq string literal into code units, so
    that ["—"] (U+2014) is the single code unit 8212 as in the source. *)

From Stdlib Require Import ZArith List String Ascii Bool Lia Permutation Sorted.
Import ListNotations.

Open Scope bool_scope.

(* ------------------------------------------------------------------ *)
(** ** JavaScript strings *)

Module JsString.

Definition jstr := list Z.

(** UTF-8 decoding of the bytes of a Rocq string literal into UTF-16
    code units (characters beyond the BMP become surrogate pairs). *)
Fixpoint utf8_decode (bs : list Z) : list Z :=
  match bs with
  | [] => []
  | b :: rest =>
      if (b <? 128)%Z then b :: utf8_decode rest
      else if (b <? 224)%Z then
        match rest with
        | b2 :: rest2 =>
            (Z.lor (Z.shiftl (Z.land b 31) 6) (Z.land b2 63))
              :: utf8_decode rest2
        | [] => []
        end
      else if (b <? 240)%Z then
        match rest with
        | b2 :: b3 :: rest3 =>
            (Z.lor (Z.shiftl (Z.land b 15) 12)
               (Z.lor (Z.shiftl (Z.land b2 63) 6) (Z.land b3 63)))
              :: utf8_decode rest3
        | _ => []
        end
      else
        match rest with
        | b2 :: b3 :: b4 :: rest4 =>
            let cp := Z.lor (Z.shiftl (Z.land b 7) 18)
                        (Z.lor (Z.shiftl (Z.land b2 63) 12)
                           (Z.lor (Z.shiftl (Z.land b3 63) 6) (Z.land b4 63))) in
            let v := (cp - 65536)%Z in
            (55296 + Z.shiftr v 10)%Z :: (56320 + Z.land v 1023)%Z
              :: utf8_decode rest4
        | _ => []
        end
  end.

Definition js (s : string) : jstr :=
  utf8_decode (map (fun c => Z.of_nat (nat_of_ascii c)) (list_ascii_of_string s)).

Arguments js s%_string_scope.

Fixpoint jeqb (a b : jstr) : bool :=
  match a, b with
  | [], [] => true
  | x :: a', y :: b' => Z.eqb x y && jeqb a' b'
  | _, _ => false
  end.

Fixpoint jlist_eqb (a b : list jstr) : bool :=
  match a, b with
  | [], [] => true
  | x :: a', y :: b' => jeqb x y && jlist_eqb a' b'
  | _, _ => false
  end.

(** ASCII lower-casing of one code unit: "A".."Z" to "a".."z", every
    other code unit kept. *)
Definition fold_cu (c : Z) : Z :=
  if (65 <=? c)%Z && (c <=? 90)%Z then (c + 32)%Z else c.

(** [String.prototype.toLowerCase], per code unit.  ASCII letters are
    mapped as JS maps them, and U+212A (KELVIN SIGN) to "k", the one code
    unit JS lower-cases to a single ASCII code unit although it is not
    ASCII.  Other code units are kept.  JS maps each of them to non-ASCII
    code units, except U+0130, which becomes "i" followed by U+0307; kept as
    the one non-ASCII U+0130 it makes the same difference to every test of
    this development, which compares the result with ASCII words (equality,
    prefix, substring) none of which ends in "i". *)
Definition lower_cu (c : Z) : Z :=
  if Z.eqb c 8490 then 107%Z else fold_cu c.

Definition toLowerCase (s : jstr) : jstr := map lower_cu s.

(** The code units [String.prototype.trim] and the regular-expression
    class [\s] treat as white space: WhiteSpace and LineTerminator. *)
Definition is_ws (c : Z) : bool :=
  ((9 <=? c)%Z && (c <=? 13)%Z) || Z.eqb c 32 || Z.eqb c 160
  || Z.eqb c 5760 || ((8192 <=? c)%Z && (c <=? 8202)%Z)
  || Z.eqb c 8232 || Z.eqb c 8233 || Z.eqb c 8239 || Z.eqb c 8287
  || Z.eqb c 12288 || Z.eqb c 65279.

Fixpoint trim_start (s : jstr) : jstr :=
  match s with
  | [] => []
  | c :: s' => if is_ws c then trim_start s' else s
  end.

Definition trim_end (s : jstr) : jstr := rev (trim_start (rev s)).

Definition trim (s : jstr) : jstr := trim_end (trim_start s).

Fixpoint startsWith (s p : jstr) {struct p} : bool :=
  match p, s with
  | [], _ => true
  | y :: p', x :: s' => Z.eqb x y && startsWith s' p'
  | _ :: _, [] => false
  end.

Definition endsWith (s p : jstr) : bool := startsWith (rev s) (rev p).

Fixpoint includes (s p : jstr) : bool :=
  startsWith s p || match s with [] => false | _ :: s' => includes s' p end.

(** [s.indexOf(p)], [None] standing for -1. *)
Fixpoint indexOf (s p : jstr) : option nat :=
  if startsWith s p then Some 0
  else match s with
       | [] => None
       | _ :: s' => option_map S (indexOf s' p)
       end.

(** [s.slice(a, b)] for [0 <= a <= b <= length s]. *)
Definition slice (s : jstr) (a b : nat) : jstr := firstn (b - a) (skipn a s).

Definition is_empty (s : jstr) : bool :=
  match s with [] => true | _ => false end.

End JsString.

Import JsString.

(* ------------------------------------------------------------------ *)
(** ** Sheet extractor ([src/src/lib/excel.ts]) *)

Module Excel.

(** A workbook as [XLSX.read] returns it: its tab names in order
    ([workbook.SheetNames]) and, for each tab, the CSV text that
    [XLSX.utils.sheet_to_csv] renders for it (the xlsx library is outside
    the repository; the model records that text per tab). *)
Record tab := mkTab { tab_name : jstr; tab_csv : jstr }.

Definition workbook := list tab.

Definition SheetNames (wb : workbook) : list jstr := map tab_name wb.

Definition CORE_SHEETS : list jstr :=
  map js ["PL - RAW"; "Dynamic PL"; "BS - RAW"; "Weekly Financial Review";
          "Monthly Comparative"; "Revenue Chart Data"; "COA - RAW";
          "Budget"; "Forecast"; "Annual P&L"]%string.

Definition SHEET_NAME_ALIASES_table : list (jstr * list jstr) :=
  [ (js "PL - RAW", map js ["P&L - RAW"; "PL-RAW"; "P&L RAW"; "Income Statement"; "PL Raw"]%string);
    (js "Dynamic PL", map js ["Dynamic P&L"; "DynamicPL"; "Formatted PL"; "P&L"]%string);
    (js "BS - RAW", map js ["BS-RAW"; "BS RAW"; "Balance Sheet"; "BS Raw"]%string);
    (js "Weekly Financial Review", map js ["Weekly Review"; "Financial Review"; "Dashboard"]%string);
    (js "Monthly Comparative", map js ["Monthly Comparison"; "MoM Comparative"; "Comparative"]%string) ].

(** [SHEET_NAME_ALIASES[targetName]], [None] standing for [undefined]. *)
Definition SHEET_NAME_ALIASES (k : jstr) : option (list jstr) :=
  option_map snd (find (fun e => jeqb (fst e) k) SHEET_NAME_ALIASES_table).

Definition same_name_ci (a b : jstr) : bool :=
  jeqb (toLowerCase a) (toLowerCase b).

(** [findSheetByName]: direct case-insensitive match first, then each alias
    in turn against every tab name. *)
Definition findSheetByName (wb : workbook) (targetName : jstr) : option jstr :=
  match find (fun n => same_name_ci n targetName) (SheetNames wb) with
  | Some n => Some n
  | None =>
      match SHEET_NAME_ALIASES targetName with
      | Some aliases =>
          (fix go (als : list jstr) : option jstr :=
             match als with
             | [] => None
             | alias :: als' =>
                 match find (fun n => same_name_ci n alias) (SheetNames wb) with
                 | Some n => Some n
                 | None => go als'
                 end
             end) aliases
      | None => None
      end
  end.

(** [workbook.Sheets[actualName]] followed by [sheetToCsv]. *)
Definition sheetToCsv (wb : workbook) (actualName : jstr) : jstr :=
  match find (fun t => jeqb (tab_name t) actualName) wb with
  | Some t => tab_csv t
  | None => []
  end.

(** [Math.ceil(text.length / 4)]. *)
Definition estimateTokens (text : jstr) : N := ((N.of_nat (List.length text) + 3) / 4)%N.

Record ExtractedSheet := mkExtractedSheet {
  name : jstr;
  csv : jstr;
  estimatedTokens : N }.

Record ExtractionResult := mkExtractionResult {
  sheets : list ExtractedSheet;
  totalTokens : N;
  missingRequiredSheets : list jstr;
  allSheetNames : list jstr }.

(** One iteration of the loop over [CORE_SHEETS]: the admitted sheets and
    the running [result.totalTokens].  The budget [maxTokens] is a
    non-negative integer. *)
Definition admit_step (wb : workbook) (maxTokens : N)
    (st : list ExtractedSheet * N) (targetName : jstr)
    : list ExtractedSheet * N :=
  let '(ss, total) := st in
  match findSheetByName wb targetName with
  | Some actualName =>
      if is_empty actualName then st   (* [if (actualName)]: "" is falsy *)
      else
        let csv := sheetToCsv wb actualName in
        let tokens := estimateTokens csv in
        if (maxTokens <? total + tokens)%N then st   (* skip: would exceed limit *)
        else (ss ++ [mkExtractedSheet actualName csv tokens], (total + tokens)%N)
  | None => st
  end.

Definition admit_all (wb : workbook) (maxTokens : N) (targets : list jstr)
    (st : list ExtractedSheet * N) : list ExtractedSheet * N :=
  fold_left (admit_step wb maxTokens) targets st.

Definition requiredSheets : list jstr := [js "PL - RAW"; js "BS - RAW"].

(** The check for required sheets, as written: the predicate given to
    [result.sheets.some] is the same for every [required]. *)
Definition required_found (ss : list ExtractedSheet) (required : jstr) : bool :=
  existsb (fun s => includes (toLowerCase (name s)) (js "pl")
                    || includes (toLowerCase (name s)) (js "bs")) ss.

Definition missing_of (ss : list ExtractedSheet) : list jstr :=
  fold_left (fun acc required =>
               if required_found ss required then acc else acc ++ [required])
            requiredSheets [].

Definition extractCoreSheets (wb : workbook) (maxTokens : N) : ExtractionResult :=
  let '(ss, total) := admit_all wb maxTokens CORE_SHEETS ([], 0%N) in
  mkExtractionResult ss total (missing_of ss) (SheetNames wb).

(** The tabs [findSheetByName] resolves for a list of target names, in
    priority order: the candidates the greedy loop attempts. *)
Definition cands (wb : workbook) (targets : list jstr) : list jstr :=
  flat_map (fun t => match findSheetByName wb t with
                     | Some n => if is_empty n then [] else [n]
                     | None => [] end) targets.

Definition candidates (wb : workbook) : list jstr := cands wb CORE_SHEETS.

Definition admitted_names (r : ExtractionResult) : list jstr := map name (sheets r).

Definition sum_tokens (ss : list ExtractedSheet) : N :=
  fold_right (fun s acc => (estimatedTokens s + acc)%N) 0%N ss.

(** Sample workbooks. *)
Definition csv_of_len (n : nat) : jstr := repeat 120%Z n.

Definition wb_aliases : workbook :=
  [mkTab (js "Income Statement") (js "a,b"); mkTab (js "Balance Sheet") (js "c,d")].

Definition wb_income_only : workbook :=
  [mkTab (js "Income Statement") (js "Revenue,100")].

Definition wb_greedy : workbook :=
  [mkTab (js "PL - RAW") (csv_of_len 20); mkTab (js "Dynamic PL") (csv_of_len 24);
   mkTab (js "BS - RAW") (csv_of_len 4)].

End Excel.

(* ------------------------------------------------------------------ *)
(** ** Cell and row classifiers ([src/src/lib/excel.ts],
    [src/src/components/report-section.tsx]) *)

Module Format.

(** The [value] argument of [formatFinancialNumber]: a string, a number,
    [null] or [undefined].  The function uses a number only through
    [String(value)], so [VNumber repr] holds that text, the output of
    [Number::toString] for the number ([number_repr] below gives its
    shape); a number is never [=== ''], whatever its text. *)
Inductive value :=
| VString (s : jstr)
| VNumber (repr : jstr)
| VNull
| VUndefined.

Record FormattedNumber := mkFormatted {
  text : jstr;
  isNegative : bool;
  isPositive : bool;
  isZero : bool;
  isNA : bool }.

Definition is_digit (c : Z) : bool := (48 <=? c)%Z && (c <=? 57)%Z.

(** [/\d/.test(s)]. *)
Definition has_digit (s : jstr) : bool := existsb is_digit s.

(** The texts [Number::toString] produces: "NaN", "Infinity",
    "-Infinity", or a non-empty text of decimal digits, ".", "e", "+" and
    "-" (as "-1.5", "1e+21" or "5e-7"). *)
Definition number_repr (r : jstr) : bool :=
  jeqb r (js "NaN") || jeqb r (js "Infinity") || jeqb r (js "-Infinity")
  || (negb (is_empty r)
      && forallb (fun c => is_digit c || existsb (Z.eqb c) [46; 101; 43; 45]%Z) r).

(** [s.replace(/[^0-9.-]/g, '')]. *)
Definition keep_numeric (s : jstr) : jstr :=
  filter (fun c => is_digit c || Z.eqb c 46 || Z.eqb c 45) s.

(** [s.replace(p, r)] with a string pattern: the first occurrence only. *)
Fixpoint replace_first (s p r : jstr) : jstr :=
  match p with
  | [] => r ++ s
  | _ =>
      if startsWith s p then r ++ skipn (List.length p) s
      else match s with
           | [] => []
           | c :: s' => c :: replace_first s' p r
           end
  end.

Fixpoint digits_prefix (s : jstr) : list Z * jstr :=
  match s with
  | c :: s' => if is_digit c then let '(d, r) := digits_prefix s' in (c :: d, r)
               else ([], s)
  | [] => ([], [])
  end.

Definition digits_value (d : list Z) : Z :=
  fold_left (fun acc c => acc * 10 + (c - 48))%Z d 0%Z.

(** [parseFloat] on a text made of digits, '.' and '-' (the only
    characters of [numericStr]): the longest prefix of the form
    [-]digits[.digits] or [-].digits, as the exact decimal [m / 10^k];
    [None] is [NaN]. *)
Definition parseFloat (s : jstr) : option (Z * nat) :=
  let '(sign, s1) :=
    match s with
    | c :: s' => if Z.eqb c 45 then ((-1)%Z, s')
                 else if Z.eqb c 43 then (1%Z, s') else (1%Z, s)
    | [] => (1%Z, s)
    end in
  let '(d1, s2) := digits_prefix s1 in
  let d2 := match s2 with
            | c :: s3 => if Z.eqb c 46 then fst (digits_prefix s3) else []
            | [] => []
            end in
  match d1, d2 with
  | [], [] => None
  | _, _ => Some ((sign * digits_value (d1 ++ d2))%Z, List.length d2)
  end.

(** [!isNaN(v) && Math.abs(v) < 0.01], decided on the exact decimal value
    of the parsed prefix (the double nearest to a decimal text differs from
    it by less than half a unit in the last place; only texts within such a
    distance of 0.01 could be classified differently). *)
Definition small_abs (v : option (Z * nat)) : bool :=
  match v with
  | None => false
  | Some (m, k) => (Z.abs m * 100 <? 10 ^ Z.of_nat k)%Z
  end.

Definition NA_result : FormattedNumber := mkFormatted (js "N/A") false false false true.
Definition zero_result : FormattedNumber := mkFormatted (js "—") false false true false.

Definition value_text (v : value) : jstr :=
  match v with
  | VString s => s
  | VNumber repr => repr
  | VNull => js "null"
  | VUndefined => js "undefined"
  end.

Definition na_value (v : value) : bool :=
  match v with
  | VNull | VUndefined => true
  | VString s =>
      is_empty s
      || includes (toLowerCase s) (js "n/a")
      || includes (toLowerCase s) (js "data not provided")
      || jeqb (toLowerCase s) (js "n/m")
      || jeqb (toLowerCase s) (js "nm")
  | VNumber repr =>
      includes (toLowerCase repr) (js "n/a")
      || includes (toLowerCase repr) (js "data not provided")
      || jeqb (toLowerCase repr) (js "n/m")
      || jeqb (toLowerCase repr) (js "nm")
  end.

Definition formatFinancialNumber (v : value) : FormattedNumber :=
  if na_value v then NA_result
  else
    let strValue := trim (value_text v) in
    if jeqb strValue (js "-") || jeqb strValue (js "—") || jeqb strValue (js "–")
    then zero_result
    else
      let isNegative :=
        (startsWith strValue (js "-") && has_digit strValue)
        || (startsWith strValue (js "(") && endsWith strValue (js ")"))
        || includes strValue (js "($")
        || includes strValue (js "-(") in
      let isPositive := startsWith strValue (js "+") && has_digit strValue in
      let numericStr := keep_numeric strValue in
      let isZero := small_abs (parseFloat numericStr) in
      if isZero && negb (includes strValue (js "%")) then zero_result
      else
        let text :=
          if isNegative && startsWith strValue (js "-")
             && negb (startsWith strValue (js "("))
          then
            if includes strValue (js "$")
            then replace_first strValue (js "-$") (js "($") ++ js ")"
            else if includes strValue (js "%")
            then js "(" ++ replace_first strValue (js "-") [] ++ js ")"
            else js "(" ++ replace_first strValue (js "-") [] ++ js ")"
          else strValue in
        mkFormatted text isNegative isPositive isZero false.

(** Named parts of [formatFinancialNumber] (the same expressions), used by
    the proofs below. *)
Definition is_dash (strValue : jstr) : bool :=
  jeqb strValue (js "-") || jeqb strValue (js "—") || jeqb strValue (js "–").

Definition negative_of (strValue : jstr) : bool :=
  (startsWith strValue (js "-") && has_digit strValue)
  || (startsWith strValue (js "(") && endsWith strValue (js ")"))
  || includes strValue (js "($")
  || includes strValue (js "-(").

Definition zero_of (strValue : jstr) : bool :=
  small_abs (parseFloat (keep_numeric strValue)).

Definition converts (strValue : jstr) : bool :=
  negative_of strValue && startsWith strValue (js "-")
  && negb (startsWith strValue (js "(")).

Definition converted (strValue : jstr) : jstr :=
  if includes strValue (js "$")
  then replace_first strValue (js "-$") (js "($") ++ js ")"
  else if includes strValue (js "%")
  then js "(" ++ replace_first strValue (js "-") [] ++ js ")"
  else js "(" ++ replace_first strValue (js "-") [] ++ js ")".

(** [isRowTotal] of [src/src/lib/excel.ts]. *)
Definition isRowTotal (label : jstr) : bool :=
  let lower := trim (toLowerCase label) in
  startsWith lower (js "total")
  || startsWith lower (js "= ")
  || includes lower (js "net income")
  || includes lower (js "gross profit")
  || includes lower (js "ebitda")
  || includes lower (js "ebit")
  || jeqb lower (js "net cash").

(** [isRowSubtotal] of [src/src/lib/excel.ts]. *)
Definition isRowSubtotal (label : jstr) : bool :=
  let lower := trim (toLowerCase label) in
  startsWith lower (js "subtotal") || startsWith lower (js "sub-total").

(** [isTotalRow] of [src/src/components/report-section.tsx]. *)
Definition isTotalRow (label : jstr) : bool :=
  let lower := trim (toLowerCase label) in
  startsWith lower (js "total")
  || startsWith lower (js "= ")
  || includes lower (js "net income")
  || includes lower (js "gross profit")
  || jeqb lower (js "ebitda")
  || jeqb lower (js "ebit")
  || jeqb lower (js "net cash").

Definition flags (r : FormattedNumber) : bool * bool * bool :=
  (isNegative r, isZero r, isNA r).

End Format.

(* ------------------------------------------------------------------ *)
(** ** The section parser [parseReportSections] ([src/unnamed/part_009]) *)

Module Report.

(** LineTerminator code units: after one of them [^] matches under the
    [m] flag. *)
Definition is_lt (c : Z) : bool :=
  Z.eqb c 10 || Z.eqb c 13 || Z.eqb c 8232 || Z.eqb c 8233.

(** The regular expression [/^##\s+/m] can start at the head of [s] (the
    line-start condition is checked by the caller): "##" then a white-space
    code unit. *)
Definition header_at (s : jstr) : bool :=
  startsWith s (js "##")
  && match skipn 2 s with c :: _ => is_ws c | [] => false end.

(** The state of [markdown.split(/^##\s+/m)] while it scans the string:
    outside a separator, with [bol] telling whether the previous code unit
    ends a line (or the scan is at the start); just after the first "#" of
    a separator; or inside the greedy [\s+] of a separator, [lastlt]
    telling whether the last white space consumed ends a line. *)
Inductive split_mode :=
| Text (bol : bool)
| Hash1
| Ws (lastlt : bool).

Definition cons_first (c : Z) (l : list jstr) : list jstr :=
  match l with [] => [[c]] | p :: ps => (c :: p) :: ps end.

(** The list of parts of the rest of the string, the first one being the
    end of the part the scan is in.  A separator match ends the current
    part; its characters belong to no part. *)
Fixpoint split_go (m : split_mode) (s : jstr) : list jstr :=
  match s with
  | [] => [[]]
  | c :: s' =>
      match m with
      | Text bol =>
          if bol && header_at s then [] :: split_go Hash1 s'
          else cons_first c (split_go (Text (is_lt c)) s')
      | Hash1 => split_go (Ws false) s'
      | Ws l =>
          if is_ws c then split_go (Ws (is_lt c)) s'
          else if l && header_at s then [] :: split_go Hash1 s'
          else cons_first c (split_go (Text (is_lt c)) s')
      end
  end.

Definition split_headers (markdown : jstr) : list jstr := split_go (Text true) markdown.

(** Case folding of a regular expression with the [i] flag and without
    [u]: the canonical form of a code unit is its upper case unless that
    maps a non-ASCII code unit to an ASCII one.  All words the patterns
    look for are ASCII, so comparing ASCII-lower-cased code units is the
    same test.  (Unlike [toLowerCase], this folding keeps U+212A: the [i]
    flag without [u] never matches it with "k".) *)
Definition re_fold (s : jstr) : jstr := map fold_cu s.

(** A pattern is a list of alternatives ([|]); an alternative is a list of
    lower-case words joined by [\s*].  As every word starts with a letter,
    the greedy [\s*] needs no backtracking. *)
Definition pattern := list (list jstr).

Fixpoint words_at (t : jstr) (ws : list jstr) : bool :=
  match ws with
  | [] => true
  | w :: ws' => startsWith t w && words_at (trim_start (skipn (List.length w) t)) ws'
  end.

Fixpoint search_words (t : jstr) (ws : list jstr) : bool :=
  words_at t ws || match t with [] => false | _ :: t' => search_words t' ws end.

(** [def.pattern.test(title)] (the patterns have no [g] flag, so [test]
    keeps no state between calls). *)
Definition pattern_test (p : pattern) (title : jstr) : bool :=
  existsb (search_words (re_fold title)) p.

Record sectionDef := { def_key : jstr; def_pattern : pattern; def_order : nat }.

Definition sectionDefinitions : list sectionDef :=
  [ {| def_key := js "executive_snapshot";
       def_pattern := [[js "executive"; js "snapshot"]]; def_order := 1 |};
    {| def_key := js "revenue_performance";
       def_pattern := [[js "revenue"; js "performance"]]; def_order := 2 |};
    {| def_key := js "cogs_gross_margin";
       def_pattern := [[js "cogs"]; [js "gross"; js "margin"]]; def_order := 3 |};
    {| def_key := js "operating_expenses";
       def_pattern := [[js "operating"; js "expenses"]]; def_order := 4 |};
    {| def_key := js "profitability_bridges";
       def_pattern := [[js "profitability"]; [js "bridges"]]; def_order := 5 |};
    {| def_key := js "variance_performance";
       def_pattern := [[js "variance"]; [js "performance"]]; def_order := 6 |};
    {| def_key := js "cash_flow_liquidity";
       def_pattern := [[js "cash"; js "flow"]; [js "liquidity"]]; def_order := 7 |};
    {| def_key := js "balance_sheet_health";
       def_pattern := [[js "balance"; js "sheet"]]; def_order := 8 |};
    {| def_key := js "risk_controls";
       def_pattern := [[js "risk"]; [js "controls"]]; def_order := 9 |} ].

Record section := { key : jstr; name : jstr; order : nat; content : jstr }.

(** [title.replace(/^\d+\.\s*/, "")]. *)
Fixpoint digit_run (t : jstr) : nat :=
  match t with
  | c :: t' => if Format.is_digit c then S (digit_run t') else 0
  | [] => 0
  end.

Definition strip_num (title : jstr) : jstr :=
  let n := digit_run title in
  if (0 <? n)%nat && startsWith (skipn n title) (js ".")
  then trim_start (skipn (S n) title) else title.

(** [`${def.order}`]: the orders are the digits 1 to 9. *)
Definition order_text (n : nat) : jstr := [(48 + Z.of_nat n)%Z].

(** The body of the loop over [sectionDefinitions]: the first definition
    whose pattern matches the title gives the section. *)
Definition make_section (title content_ : jstr) : option section :=
  match find (fun d => pattern_test (def_pattern d) title) sectionDefinitions with
  | Some d =>
      Some {| key := def_key d;
              name := order_text (def_order d) ++ js ". " ++ strip_num title;
              order := def_order d;
              content := js "## " ++ title ++ [10; 10]%Z ++ content_ |}
  | None => None
  end.

(** The body of the loop over the parts: title and content of a part. *)
Definition section_of_part (part : jstr) : option section :=
  let firstLineEnd := indexOf part [10%Z] in
  let title := match firstLineEnd with
               | Some (S k) => trim (slice part 0 (S k))
               | _ => trim part
               end in
  let content_ := match firstLineEnd with
                  | Some (S k) => trim (skipn (S (S k)) part)
                  | _ => []
                  end in
  make_section title content_.

Fixpoint collect_sections (parts : list jstr) : list section :=
  match parts with
  | [] => []
  | part :: parts' =>
      match section_of_part part with
      | Some s => s :: collect_sections parts'
      | None => collect_sections parts'
      end
  end.

(** The sections pushed by the loop [for (let i = 1; ...)]: the part before
    the first heading is skipped. *)
Definition pre_sections (markdown : jstr) : list section :=
  collect_sections (tl (split_headers markdown)).

(** [sections.sort((a, b) => a.order - b.order)]: [Array.prototype.sort] is
    stable, so the result is the stable ordering by [order], computed here
    by insertion (an element goes before the first one of the sorted rest
    whose order is not smaller). *)
Fixpoint insert_by_order (x : section) (l : list section) : list section :=
  match l with
  | [] => [x]
  | y :: l' => if (order x <=? order y)%nat then x :: l else y :: insert_by_order x l'
  end.

Fixpoint sort_sections (l : list section) : list section :=
  match l with
  | [] => []
  | x :: l' => insert_by_order x (sort_sections l')
  end.

Definition fallback_section (markdown : jstr) : section :=
  {| key := js "full_report"; name := js "Financial Review"; order := 1;
     content := markdown |}.

Definition parseReportSections (markdown : jstr) : list section :=
  match sort_sections (pre_sections markdown) with
  | [] => if is_empty (trim markdown) then [] else [fallback_section markdown]
  | sections => sections
  end.

(** Documents made of heading blocks, used to state properties of the
    parser: a block is the heading line "## title" and the lines below. *)
Definition block (tb : jstr * jstr) : jstr := js "## " ++ fst tb ++ [10%Z] ++ snd tb.

Definition blocks (secs : list (jstr * jstr)) : jstr := List.concat (map block secs).

(** No line of [s] is a heading line "##" followed by white space ([bol]:
    the scan starts at the start of a line). *)
Fixpoint no_hdr (bol : bool) (s : jstr) : bool :=
  match s with
  | [] => true
  | c :: s' => negb (bol && header_at s) && no_hdr (is_lt c) s'
  end.

(** [s] is empty or its last code unit ends a line. *)
Definition ends_line (s : jstr) : bool :=
  match rev s with [] => true | c :: _ => is_lt c end.

(** A well-formed block: a non-empty title on one line with no white space
    around it, and a body with no heading line that ends with a line end
    (or is empty). *)
Definition wf_block (tb : jstr * jstr) : bool :=
  negb (is_empty (fst tb)) && jeqb (trim (fst tb)) (fst tb)
  && forallb (fun c => negb (is_lt c)) (fst tb)
  && no_hdr true (snd tb) && ends_line (snd tb).

(** A well-formed last block: as [wf_block], but its body need not end
    with a line end. *)
Definition wf_last (tb : jstr * jstr) : bool :=
  negb (is_empty (fst tb)) && jeqb (trim (fst tb)) (fst tb)
  && forallb (fun c => negb (is_lt c)) (fst tb)
  && no_hdr true (snd tb).

(** Well-formed blocks, the last of which may end without a line end. *)
Fixpoint wf_blocks (secs : list (jstr * jstr)) : bool :=
  match secs with
  | [] => true
  | [tb] => wf_last tb
  | tb :: secs' => wf_block tb && wf_blocks secs'
  end.

(** The order of the first definition whose pattern matches a title, 0 for
    none. *)
Definition title_order (title : jstr) : nat :=
  match make_section title [] with Some s => order s | None => 0 end.

Fixpoint filter_map {A B : Type} (f : A -> option B) (l : list A) : list B :=
  match l with
  | [] => []
  | x :: l' => match f x with Some y => y :: filter_map f l' | None => filter_map f l' end
  end.

(** The section a block yields, as the loop computes it. *)
Definition block_section (tb : jstr * jstr) : option section :=
  make_section (fst tb) (trim (snd tb)).

(** Helpers for stating how the scan of a document splits: [cons_all s l]
    prepends [s] to the first part of [l]; [bol_after bol s] is the line-start
    flag after scanning [s]; [part] is the text a block leaves after its
    separator "## ". *)
Definition cons_all (s : jstr) (l : list jstr) : list jstr :=
  match l with [] => [s] | p :: ps => (s ++ p) :: ps end.

Fixpoint bol_after (bol : bool) (s : jstr) : bool :=
  match s with [] => bol | c :: s' => bol_after (is_lt c) s' end.

Definition part (tb : jstr * jstr) : jstr := fst tb ++ [10%Z] ++ snd tb.

(** Sample documents.  [sample_nine]: the nine section headings in a
    scrambled order, each with a one-line body. *)
Definition sample_nine : list (jstr * jstr) :=
  [ (js "Risk & Controls", js "R" ++ [10%Z]);
    (js "1. Executive Snapshot", js "E" ++ [10%Z]);
    (js "Balance Sheet Health", js "BS" ++ [10%Z]);
    (js "Revenue Performance", js "RP" ++ [10%Z]);
    (js "COGS & Gross Margin", js "C" ++ [10%Z]);
    (js "Operating Expenses", js "O" ++ [10%Z]);
    (js "Cash Flow & Liquidity", js "CF" ++ [10%Z]);
    (js "Profitability Bridges", js "P" ++ [10%Z]);
    (js "Variance Analysis", js "V" ++ [10%Z]) ].

(** A line before the first heading, a block whose title matches no
    pattern, then an executive snapshot. *)
Definition sample_intro : jstr := js "Intro" ++ [10%Z].

(** The nine sample blocks, the last body without its final line end. *)
Definition sample_nine_open : list (jstr * jstr) :=
  removelast sample_nine
  ++ match last sample_nine ([], []) with (t, b) => [(t, removelast b)] end.

Definition sample_intro_blocks : list (jstr * jstr) :=
  [ (js "Appendix", js "B" ++ [10%Z]); (js "Executive Snapshot", js "A" ++ [10%Z]) ].

(** Two headings matched by the risk pattern around another section. *)
Definition sample_dup : jstr :=
  blocks [ (js "Key Risks", js "first" ++ [10%Z]);
           (js "Executive Snapshot", js "summary" ++ [10%Z]);
           (js "Internal Controls", js "second" ++ [10%Z]) ].

End Report.

(* ------------------------------------------------------------------ *)
(** ** Regular expressions of the special-block extractor *)

(** A backtracking matcher following the ECMAScript semantics of the
    constructs the extractor's patterns use: character classes,
    concatenation, alternation (left first), greedy star (an iteration
    that matches the empty string fails), one capturing group, and the
    anchors [^] and [$] without the [m] flag. *)
Module Regex.

Inductive re :=
| RChar (p : Z -> bool)
| RSeq (a b : re)
| RAlt (a b : re)
| RStar (a : re)
| RGroup (a : re)
| RStart
| REnd
| REps.

(** The capture of group 1: start and end positions. *)
Definition cap := option (nat * nat).

(** [OutOfFuel] is kept apart from [Fail]: a result computed without
    running out of fuel is the result of the unbounded matcher. *)
Inductive res := Fail | OutOfFuel | Found (e : nat) (c : cap).

(** [m fuel r s pos c k]: match [r] against the rest [s] of the input,
    which starts at position [pos], then run the continuation [k]. *)
Fixpoint m (fuel : nat) (r : re) (s : jstr) (pos : nat) (c : cap)
  (k : jstr -> nat -> cap -> res) : res :=
  match fuel with
  | O => OutOfFuel
  | S f =>
      match r with
      | RChar p => match s with x :: s' => if p x then k s' (S pos) c else Fail | [] => Fail end
      | RSeq a b => m f a s pos c (fun s1 p1 c1 => m f b s1 p1 c1 k)
      | RAlt a b => match m f a s pos c k with Fail => m f b s pos c k | r' => r' end
      | RStar a =>
          match m f a s pos c (fun s1 p1 c1 =>
                  if Nat.eqb p1 pos then Fail else m f (RStar a) s1 p1 c1 k) with
          | Fail => k s pos c
          | r' => r'
          end
      | RGroup a => m f a s pos c (fun s1 p1 _ => k s1 p1 (Some (pos, p1)))
      | RStart => if Nat.eqb pos 0 then k s pos c else Fail
      | REnd => match s with [] => k s pos c | _ => Fail end
      | REps => k s pos c
      end
  end.

Definition fuel_for (s : jstr) : nat := 1000 * (List.length s + 1).

Definition match_at (r : re) (s : jstr) (i : nat) : res :=
  m (fuel_for s) r (skipn i s) i None (fun _ e c => Found e c).

(** [RegExpBuiltinExec] from [lastIndex = i]: the first position [>= i]
    where the pattern matches; [None] when the fuel ran out. *)
Fixpoint exec_loop (n : nat) (r : re) (s : jstr) (i : nat)
  : option (option (nat * nat * cap)) :=
  match match_at r s i with
  | Found e c => Some (Some (i, e, c))
  | OutOfFuel => None
  | Fail => match n with O => Some None | S n' => exec_loop n' r s (S i) end
  end.

Definition exec (r : re) (s : jstr) (i : nat) : option (option (nat * nat * cap)) :=
  if (List.length s <? i)%nat then Some None else exec_loop (List.length s - i) r s i.

(** The matches of a global pattern, as [String.prototype.match] and
    [replace] collect them: after an empty match the search moves on by
    one position. *)
Fixpoint matches_loop (n : nat) (r : re) (s : jstr) (i : nat) : option (list (nat * nat)) :=
  match n with
  | O => None
  | S n' =>
      match exec r s i with
      | None => None
      | Some None => Some []
      | Some (Some (st, e, _)) =>
          match matches_loop n' r s (if Nat.eqb e st then S e else e) with
          | None => None
          | Some l => Some ((st, e) :: l)
          end
      end
  end.

Definition matches (r : re) (s : jstr) : option (list (nat * nat)) :=
  matches_loop (List.length s + 2) r s 0.

(** [s.match(r)] for a global [r]: the matched strings, [[]] standing for
    [null]. *)
Definition match_all (r : re) (s : jstr) : option (list jstr) :=
  option_map (map (fun '(st, e) => slice s st e)) (matches r s).

(** [s.replace(r, rep)] for a global [r] and a replacement with no [$]. *)
Fixpoint splice_all (s : jstr) (from : nat) (ms : list (nat * nat)) (rep : jstr) : jstr :=
  match ms with
  | [] => skipn from s
  | (st, e) :: ms' => slice s from st ++ rep ++ splice_all s e ms' rep
  end.

Definition replace_all (r : re) (s rep : jstr) : option jstr :=
  option_map (fun ms => splice_all s 0 ms rep) (matches r s).

(** [s.replace(r, rep)] for a non-global [r]: the first match only. *)
Definition replace_one (r : re) (s rep : jstr) : option jstr :=
  match exec r s 0 with
  | None => None
  | Some None => Some s
  | Some (Some (st, e, _)) => Some (firstn st s ++ rep ++ skipn e s)
  end.

(** Building blocks. *)
Definition ROpt (a : re) : re := RAlt a REps.
Definition RPlus (a : re) : re := RSeq a (RStar a).
Definition RSeqs (l : list re) : re := fold_right RSeq REps l.

(** A literal word; with [ic] (the [i] flag) compared up to ASCII case,
    which is the [i] flag's canonicalisation without [u] (see [re_fold]). *)
Fixpoint lit (ic : bool) (w : jstr) : re :=
  match w with
  | [] => REps
  | c :: w' => RSeq (RChar (fun x => if ic then Z.eqb (fold_cu x) (fold_cu c) else Z.eqb x c))
                    (lit ic w')
  end.

Definition ws : re := RChar is_ws.
Definition digit : re := RChar Format.is_digit.
Definition nl : re := RChar (fun x => Z.eqb x 10).
(** [.]: any code unit but a line terminator. *)
Definition dot : re := RChar (fun x => negb (Report.is_lt x)).
(** [#{1,4}], greedy. *)
Definition hashes14 : re :=
  let h := RChar (fun x => Z.eqb x 35) in RSeq h (ROpt (RSeq h (ROpt (RSeq h (ROpt h))))).

End Regex.

(* ------------------------------------------------------------------ *)
(** ** The special-block extractor [parseSpecialSections]
    ([src/src/components/report-section.tsx]) *)

Module Special.
Import Regex.

Definition colon_ws : re := RChar (fun x => Z.eqb x 58 || is_ws x).
Definition not_close : re := RChar (fun x => negb (Z.eqb x 41)).
(** [[-*•]] (and [[-•*]]), [[-*•?]]. *)
Definition bullet3 (x : Z) : bool := Z.eqb x 45 || Z.eqb x 42 || Z.eqb x 8226.
Definition bullet4 (x : Z) : bool := bullet3 x || Z.eqb x 63.

(** The regular expression [sectionPattern] of [extractExecutiveInsights]
    (flags [g] and [i]), one list element per item of the source. *)
Definition sectionPattern : re :=
  RSeqs [ ROpt (RSeq hashes14 (RStar ws));
          ROpt (lit true (js "**"));
          ROpt (RSeqs [RPlus digit; ROpt (lit true (js ".")); RStar digit; RPlus ws]);
          ROpt (RSeq (lit true (js "Top")) (RPlus ws));
          lit true (js "Executive"); RPlus ws;
          RAlt (RSeq (lit true (js "Insight")) (ROpt (lit true (js "s")))) (lit true (js "Summary"));
          ROpt (lit true (js "**"));
          RStar colon_ws;
          ROpt (RSeqs [lit true (js "("); RStar not_close; lit true (js ")")]);
          RStar ws; nl;
          RGroup (RPlus (RSeqs [RAlt (RSeq (RPlus digit) (lit true (js "."))) (RChar bullet3);
                                RPlus ws; RPlus dot; RAlt nl REnd])) ].

(** The regular expression [takeawaysPattern] (flags [g] and [i]), one
    list element per item of the source. *)
Definition takeawaysPattern : re :=
  RSeqs [ ROpt (RSeq hashes14 (RStar ws));
          ROpt (lit true (js "**"));
          lit true (js "Key"); RPlus ws; lit true (js "Takeaways");
          ROpt (lit true (js "**"));
          RStar colon_ws;
          ROpt (RSeqs [lit true (js "("); RPlus not_close; lit true (js ")")]);
          RStar ws; nl;
          RGroup (RPlus (RSeqs [RChar bullet3; RStar ws; RPlus dot; RAlt nl REnd])) ].

(** The regular expression [questionsPattern] (flags [g] and [i]), one
    list element per item of the source. *)
Definition questionsPattern : re :=
  RSeqs [ ROpt (RSeq hashes14 (RStar ws));
          ROpt (lit true (js "**"));
          lit true (js "Question"); ROpt (lit true (js "s")); RPlus ws;
          ROpt (RSeq (lit true (js "for")) (RPlus ws));
          lit true (js "Management");
          ROpt (lit true (js "**"));
          RStar colon_ws;
          ROpt (RSeqs [lit true (js "("); RPlus not_close; lit true (js ")")]);
          RStar ws; nl;
          RGroup (RPlus (RSeqs [RChar bullet4; RStar ws; RPlus dot; RAlt nl REnd])) ].

(** [/[-*•]\s*(.+)/g], [/[-*•?]\s*(.+)/g]. *)
Definition takeawayItem : re := RSeqs [RChar bullet3; RStar ws; RGroup (RPlus dot)].
Definition questionItem : re := RSeqs [RChar bullet4; RStar ws; RGroup (RPlus dot)].

(** [/^[-*•]\s*/], [/^[-*•?]+\s*/], [/^\d+\.\s*/], [/^[-•*]\s*/]. *)
Definition takeawayMarker : re := RSeqs [RStart; RChar bullet3; RStar ws].
Definition questionMarker : re := RSeqs [RStart; RPlus (RChar bullet4); RStar ws].
Definition numberMarker : re := RSeqs [RStart; RPlus digit; lit false (js "."); RStar ws].
Definition bulletMarker : re := RSeqs [RStart; RChar bullet3; RStar ws].

Definition isExecutiveInsightsHeader (text : jstr) : bool :=
  let lower := toLowerCase text in
  includes lower (js "executive insight") || includes lower (js "top insight")
  || includes lower (js "numeric callout") || includes lower (js "with callout").

(** [s.split(/\n/)]. *)
Fixpoint split_nl (s : jstr) : list jstr :=
  match s with
  | [] => [[]]
  | c :: s' =>
      if Z.eqb c 10 then [] :: split_nl s'
      else match split_nl s' with p :: ps => (c :: p) :: ps | [] => [[c]] end
  end.

Fixpoint map_opt {A B : Type} (f : A -> option B) (l : list A) : option (list B) :=
  match l with
  | [] => Some []
  | x :: l' =>
      match f x, map_opt f l' with
      | Some y, Some ys => Some (y :: ys)
      | _, _ => None
      end
  end.

Definition clean_insight (line : jstr) : option jstr :=
  match replace_one numberMarker line [] with
  | None => None
  | Some l1 => option_map trim (replace_one bulletMarker l1 [])
  end.

Definition extractExecutiveInsights (content : jstr) : option (list jstr * jstr) :=
  match exec sectionPattern content 0 with
  | None => None
  | Some None => Some ([], content)
  | Some (Some (st, e, c)) =>
      let insightsBlock := match c with Some (a, b) => slice content a b | None => [] end in
      match map_opt clean_insight (split_nl insightsBlock) with
      | None => None
      | Some lines =>
          Some (filter (fun line => negb (is_empty line) && negb (isExecutiveInsightsHeader line)) lines,
                Format.replace_first content (slice content st e) [10%Z])
      end
  end.

(** The items of the matched blocks: every item match of every block, its
    marker removed and trimmed, the empty ones left out. *)
Definition block_items (item marker : re) (blocks_ : list jstr) : option (list jstr) :=
  match map_opt (fun b => match match_all item b with
                          | None => None
                          | Some its => map_opt (fun it => option_map trim (replace_one marker it [])) its
                          end) blocks_ with
  | None => None
  | Some texts => Some (filter (fun t => negb (is_empty t)) (List.concat texts))
  end.

(** One of the two extraction steps: when the pattern matches, collect the
    items and replace every match with a line end. *)
Definition extract_step (pat item marker : re) (content : jstr) : option (list jstr * jstr) :=
  match match_all pat content with
  | None => None
  | Some [] => Some ([], content)
  | Some ms =>
      match block_items item marker ms, replace_all pat content [10%Z] with
      | Some its, Some content' => Some (its, content')
      | _, _ => None
      end
  end.

Record special := { sp_content : jstr; keyTakeaways : list jstr;
                    questions : list jstr; executiveInsights : list jstr }.

Definition parseSpecialSections (markdown : jstr) : option special :=
  match extractExecutiveInsights markdown with
  | None => None
  | Some (insights, afterInsights) =>
      match extract_step takeawaysPattern takeawayItem takeawayMarker afterInsights with
      | None => None
      | Some (tk, c1) =>
          match extract_step questionsPattern questionItem questionMarker c1 with
          | None => None
          | Some (qs, c2) =>
              Some {| sp_content := trim c2; keyTakeaways := tk; questions := qs;
                      executiveInsights := insights |}
          end
      end
  end.

(** Sample sections: a takeaways block of three bullets and a questions
    block of two, with bold headings ([sample_bold]) or with "###"
    headings after an introductory line ([sample_atx]). *)
Definition sample_bold : jstr :=
  js "**Key Takeaways**" ++ [10%Z] ++ js "- a" ++ [10%Z] ++ js "- b" ++ [10%Z]
  ++ js "- c" ++ [10%Z] ++ js "**Questions for Management**" ++ [10%Z]
  ++ js "- q1" ++ [10%Z] ++ js "- q2".

Definition sample_atx : jstr :=
  js "Intro" ++ [10%Z] ++ js "### Key Takeaways" ++ [10%Z] ++ js "- a" ++ [10%Z]
  ++ js "- b" ++ [10%Z] ++ js "- c" ++ [10%Z] ++ [10%Z]
  ++ js "### Questions for Management" ++ [10%Z] ++ js "- q1" ++ [10%Z] ++ js "- q2".

End Special.

(* ------------------------------------------------------------------ *)
(** ** Workbook preview, validation and prompt text
    ([src/src/lib/excel.ts]) *)

Module ExcelTools.
Import Excel.

Record Preview := mkPreview {
  foundSheets : list jstr;
  missingSheets : list jstr;
  allSheets : list jstr }.

(** One iteration of the loop of [previewExtraction]: [if (actualName)]
    is false for [null] and for the empty name. *)
Definition preview_step (wb : workbook) (st : list jstr * list jstr) (targetName : jstr)
    : list jstr * list jstr :=
  let '(found, missing) := st in
  match findSheetByName wb targetName with
  | Some actualName =>
      if is_empty actualName then (found, missing ++ [targetName])
      else (found ++ [actualName], missing)
  | None => (found, missing ++ [targetName])
  end.

(** [if (actualName)] holds for a tab the name resolves to. *)
Definition resolves (wb : workbook) (t : jstr) : bool :=
  match findSheetByName wb t with Some n => negb (is_empty n) | None => false end.

(** [previewExtraction], on the workbook [XLSX.read] returns. *)
Definition previewExtraction (wb : workbook) : Preview :=
  let '(found, missing) := fold_left (preview_step wb) CORE_SHEETS ([], []) in
  mkPreview found missing (SheetNames wb).

(** The outcome of [XLSX.read] inside the [try] of [validateExcelFile]: a
    workbook, or a thrown value, with its [message] when it is an [Error]. *)
Inductive read_result :=
| Parsed (wb : workbook)
| Thrown (message : option jstr).

Record Validation := mkValidation {
  valid : bool;
  error : option jstr;
  sheetCount : option nat }.

(** [Array.prototype.join]. *)
Fixpoint join (sep : jstr) (l : list jstr) : jstr :=
  match l with
  | [] => []
  | [x] => x
  | x :: l' => x ++ sep ++ join sep l'
  end.

Definition validateExcelFile (r : read_result) : Validation :=
  match r with
  | Thrown msg =>
      mkValidation false
        (Some (js "Invalid Excel file: "
               ++ match msg with Some e => e | None => js "Unknown error" end))
        None
  | Parsed wb =>
      if Nat.eqb (List.length (SheetNames wb)) 0
      then mkValidation false (Some (js "Excel file has no sheets")) None
      else
        let hasFinancialSheet :=
          existsb (fun n => match findSheetByName wb n with Some _ => true | None => false end)
                  CORE_SHEETS in
        if negb hasFinancialSheet
        then mkValidation false
               (Some (js "No financial sheets found. Expected at least one of: "
                      ++ join (js ", ") (firstn 3 CORE_SHEETS)
                      ++ js ". Found: " ++ join (js ", ") (firstn 5 (SheetNames wb))
                      ++ (if (5 <? List.length (SheetNames wb))%nat then js "..." else [])))
               None
        else mkValidation true None (Some (List.length (SheetNames wb)))
  end.

(** [String(n)] for a non-negative integer [n]: its decimal digits. *)
Fixpoint digits_go (fuel n : nat) (acc : jstr) : jstr :=
  match fuel with
  | O => acc
  | S f =>
      let acc' := (48 + Z.of_nat (n mod 10))%Z :: acc in
      if (n <? 10)%nat then acc' else digits_go f (n / 10) acc'
  end.

Definition number_text (n : nat) : jstr := digits_go (S n) n [].

(** [c.repeat(80)]. *)
Definition rule (c : Z) : jstr := repeat c 80.

(** [formatForClaude]: each [output +=] of the source is one [++]. *)
Definition formatForClaude (result : ExtractionResult) (companyName periodEnd : jstr) : jstr :=
  let output := js "COMPANY: " ++ companyName ++ [10%Z] in
  let output := output ++ (js "REPORTING PERIOD ENDING: " ++ periodEnd ++ [10%Z]) in
  let output := output ++ ([10%Z] ++ rule 61 ++ [10%Z]) in
  let output := output ++ (js "FINANCIAL DATA (" ++ number_text (List.length (sheets result))
                           ++ js " SHEETS EXTRACTED)" ++ [10%Z]) in
  let output := output ++ (rule 61 ++ [10%Z]) in
  fold_left (fun output sheet =>
               let output := output ++ ([10%Z] ++ js "### SHEET: " ++ name sheet ++ [10%Z]) in
               let output := output ++ (rule 45 ++ [10%Z]) in
               let output := output ++ csv sheet in
               output ++ [10%Z])
            (sheets result) output.

(** The lines [formatForClaude] writes for one sheet, after the line end
    that precedes them. *)
Definition sheet_lines (s : ExtractedSheet) : jstr :=
  js "### SHEET: " ++ name s ++ [10%Z] ++ rule 45 ++ [10%Z] ++ csv s ++ [10%Z].

End ExcelTools.

(* ------------------------------------------------------------------ *)
(** ** Rendering helpers of [src/src/components/report-section.tsx] *)

Module Render.
Import Regex.

(** The class [[.*+?^${}()|[\]\\]] of [escapeRegex]: the code units of
    ". * + ? ^ $ { } ( ) | [ ]" and the backslash. *)
Definition regex_special (c : Z) : bool :=
  existsb (Z.eqb c) [46; 42; 43; 63; 94; 36; 123; 125; 40; 41; 124; 91; 93; 92]%Z.

(** [str.replace(/[...]/g, '\\$&')]: every match is one code unit of the
    class, and the replacement writes a backslash before the matched unit
    ([$&]); the other code units are kept. *)
Definition escapeRegex (str : jstr) : jstr :=
  flat_map (fun c => if regex_special c then [92%Z; c] else [c]) str.

Definition cls_yes : jstr := js "text-emerald-600 dark:text-emerald-400 font-medium".
Definition cls_no : jstr := js "text-red-600 dark:text-red-400".
Definition cls_na : jstr := js "financial-na".

(** [formatMaterialIndicator]: [Some (text, className)] or [None] for
    [null].  [toLowerCase] is compared with "yes", "no", "n/a" and "n/m",
    ASCII words not ending in "i", for which [toLowerCase] gives the
    comparisons JS makes. *)
Definition formatMaterialIndicator (value : jstr) : option (jstr * jstr) :=
  let trimmed := trim value in
  if jeqb trimmed (js "✓") || jeqb trimmed (js "✅") || jeqb (toLowerCase trimmed) (js "yes")
  then Some (trimmed, cls_yes)
  else if jeqb trimmed (js "✗") || jeqb trimmed (js "❌") || jeqb (toLowerCase trimmed) (js "no")
  then Some (trimmed, cls_no)
  else if jeqb (toLowerCase trimmed) (js "n/a") || jeqb trimmed (js "-")
          || jeqb trimmed (js "—") || jeqb (toLowerCase trimmed) (js "n/m")
  then Some (trimmed, cls_na)
  else None.

(** The class names and text the [td] renderer gives a formatted number:
    the classes passed to [cn] whose condition holds, in order, and
    [formatted.text]. *)
Definition td_formatted (formatted : Format.FormattedNumber) : list jstr * jstr :=
  ((if Format.isNegative formatted then [js "financial-negative"] else [])
   ++ (if Format.isZero formatted then [js "financial-zero"] else [])
   ++ (if Format.isNA formatted then [js "financial-na"] else []),
   Format.text formatted).

(** The [td] renderer of [MarkdownContent], from the cell's text
    [extractTextContent(children)]: the class names given to [cn] (those
    whose condition holds, in order) and the text shown.  The renderer
    imports [formatFinancialNumber] from [@/lib/format-financial], a module
    that is not in src/, so it is the argument [fmt] here; the renderer
    reads the fields [isNegative], [isZero], [isNA] and [text] of its
    result, the fields of [Format.FormattedNumber]. *)
Definition td_cell (fmt : jstr -> Format.FormattedNumber) (text : jstr) : list jstr * jstr :=
  if jeqb text (js "[object Object]") || jeqb text []
  then ([js "financial-na"], js "—")
  else
    match formatMaterialIndicator text with
    | Some (t, c) => ([c], t)
    | None => td_formatted (fmt text)
    end.

(** What the [h3] and [h4] renderers of [MarkdownContent] show. *)
Inductive heading_view := Hidden | TakeawaysCallout | QuestionsCallout | Plain.

(** The [h3] renderer, from [lower = String(children).toLowerCase()]. *)
Definition h3_view (lower : jstr) : heading_view :=
  if includes lower (js "executive insight") || includes lower (js "top insight") then Hidden
  else if includes lower (js "key takeaways") then TakeawaysCallout
  else if includes lower (js "questions") && includes lower (js "management")
  then QuestionsCallout
  else Plain.

(** The [h4] renderer, from [text = String(children).toLowerCase()]. *)
Definition h4_view (text : jstr) : heading_view :=
  if includes text (js "executive insight") || includes text (js "top insight") then Hidden
  else if includes text (js "key takeaway") then TakeawaysCallout
  else if includes text (js "question") then QuestionsCallout
  else Plain.

(** The [p] renderer: a labelled interpretation block (label and the text
    after it) or a plain paragraph.  [None] when the regular-expression
    model runs out of fuel. *)
Inductive para_view := Labelled (label rest : jstr) | PlainPara.

(** [/^interpretation:\s*/i], [/^note:\s*/i], [/^observations:?\s*/i]. *)
Definition interpretationPrefix : re := RSeqs [RStart; lit true (js "interpretation:"); RStar ws].
Definition notePrefix : re := RSeqs [RStart; lit true (js "note:"); RStar ws].
Definition observationsPrefix : re :=
  RSeqs [RStart; lit true (js "observations"); ROpt (lit true (js ":")); RStar ws].

(** [toLowerCase] is only tested for the prefixes "interpretation:",
    "note:" and "observations", ASCII words not ending in "i", for which
    [toLowerCase] gives the tests JS makes.  The patterns that remove the
    prefix use the [i] flag, whose folding ([fold_cu]) differs from
    [toLowerCase] only on U+212A, and no prefix holds a "k". *)
Definition p_view (text : jstr) : option para_view :=
  if startsWith (toLowerCase text) (js "interpretation:")
  then option_map (Labelled (js "Interpretation:")) (replace_one interpretationPrefix text [])
  else if startsWith (toLowerCase text) (js "note:")
  then option_map (Labelled (js "Note:")) (replace_one notePrefix text [])
  else if startsWith (toLowerCase text) (js "observations")
  then option_map (Labelled (js "Observations:")) (replace_one observationsPrefix text [])
  else Some PlainPara.

End Render.

(* ------------------------------------------------------------------ *)
(** ** Measures of the regular-expression model *)

Module RegexMeasure.
Import Regex.

(** The nesting depth of a pattern: [m] spends one unit of fuel per level
    before it reaches the input. *)
Fixpoint depth (r : re) : nat :=
  match r with
  | RSeq a b | RAlt a b => S (Nat.max (depth a) (depth b))
  | RStar a | RGroup a => S (depth a)
  | RChar _ | RStart | REnd | REps => 0
  end.

(** [needs_lf r]: every match of [r] consumes a line feed. *)
Inductive needs_lf : re -> Prop :=
| needs_char (p : Z -> bool) : (forall x, p x = true -> x = 10%Z) -> needs_lf (RChar p)
| needs_seq_l (a b : re) : needs_lf a -> needs_lf (RSeq a b)
| needs_seq_r (a b : re) : needs_lf b -> needs_lf (RSeq a b)
| needs_alt (a b : re) : needs_lf a -> needs_lf b -> needs_lf (RAlt a b)
| needs_group (a : re) : needs_lf a -> needs_lf (RGroup a).

End RegexMeasure.

(* ================================================================== *)
(** * Properties *)

Module ExcelFacts.
Import Excel.

(** Ordered sub-sequence of a list. *)
Inductive subseq {A : Type} : list A -> list A -> Prop :=
| subseq_nil : subseq [] []
| subseq_skip x l1 l2 : subseq l1 l2 -> subseq l1 (x :: l2)
| subseq_take x l1 l2 : subseq l1 l2 -> subseq (x :: l1) (x :: l2).

Lemma subseq_nil_l {A} (l : list A) : subseq [] l.
Proof. induction l; constructor; auto. Qed.

Lemma subseq_app {A} (l1 l2 m1 m2 : list A) :
  subseq l1 m1 -> subseq l2 m2 -> subseq (l1 ++ l2) (m1 ++ m2).
Proof.
  intros H1 H2; induction H1; simpl.
  - exact H2.
  - apply subseq_skip; exact IHsubseq.
  - apply subseq_take; exact IHsubseq.
Qed.

Lemma sum_tokens_app (a b : list ExtractedSheet) :
  sum_tokens (a ++ b) = (sum_tokens a + sum_tokens b)%N.
Proof.
  induction a as [|x a IH]; simpl; [reflexivity|]. rewrite IH. lia.
Qed.

(** The greedy loop keeps the running total equal to the sum of the admitted
    estimates and within the budget, and admits candidates in order. *)
Lemma admit_all_inv (wb : workbook) (B : N) (targets : list jstr) :
  forall ss total,
    total = sum_tokens ss -> (total <= B)%N ->
    let '(ss', total') := admit_all wb B targets (ss, total) in
    total' = sum_tokens ss' /\ (total' <= B)%N /\
    exists ext, ss' = ss ++ ext /\ subseq (map name ext) (cands wb targets).
Proof.
  induction targets as [|t targets IH]; intros ss total Htot Hle.
  - simpl. split; [exact Htot|]. split; [exact Hle|].
    exists []. rewrite app_nil_r. split; [reflexivity | constructor].
  - unfold admit_all. cbn [fold_left].
    remember (admit_step wb B (ss, total) t) as st eqn:Hst.
    unfold admit_step in Hst.
    unfold cands; cbn [flat_map]; fold (cands wb targets).
    destruct (findSheetByName wb t) as [n|] eqn:Hf.
    + destruct (is_empty n) eqn:He.
      * subst st. specialize (IH ss total Htot Hle). unfold admit_all in IH.
        destruct (fold_left _ targets (ss, total)) as [ss' total'].
        destruct IH as (H1 & H2 & ext & H3 & H4).
        repeat split; auto. exists ext; split; auto.
      * destruct (B <? total + estimateTokens (sheetToCsv wb n))%N eqn:Hb.
        -- subst st. specialize (IH ss total Htot Hle). unfold admit_all in IH.
           destruct (fold_left _ targets (ss, total)) as [ss' total'].
           destruct IH as (H1 & H2 & ext & H3 & H4).
           repeat split; auto. exists ext; split; auto.
           simpl. apply subseq_skip. exact H4.
        -- subst st. apply N.ltb_ge in Hb.
           set (x := mkExtractedSheet n (sheetToCsv wb n) (estimateTokens (sheetToCsv wb n))).
           assert (Hs : (total + estimateTokens (sheetToCsv wb n))%N = sum_tokens (ss ++ [x])).
           { rewrite sum_tokens_app, <- Htot. simpl. lia. }
           specialize (IH (ss ++ [x]) _ Hs Hb). unfold admit_all in IH.
           destruct (fold_left _ targets (ss ++ [x], _)) as [ss' total'].
           destruct IH as (H1 & H2 & ext & H3 & H4).
           repeat split; auto. exists (x :: ext). split.
           ++ rewrite H3, <- app_assoc. reflexivity.
           ++ simpl. apply subseq_take. exact H4.
    + subst st. specialize (IH ss total Htot Hle). unfold admit_all in IH.
      destruct (fold_left _ targets (ss, total)) as [ss' total'].
      destruct IH as (H1 & H2 & ext & H3 & H4).
      repeat split; auto. exists ext; split; auto.
Qed.

Lemma subseq_incl {A} (l1 l2 : list A) : subseq l1 l2 -> incl l1 l2.
Proof.
  induction 1; intros y Hy; simpl in *; auto.
  destruct Hy; auto.
Qed.

Lemma extract_inv (wb : workbook) (B : N) :
  let r := extractCoreSheets wb B in
  totalTokens r = sum_tokens (sheets r) /\ (totalTokens r <= B)%N /\
  subseq (admitted_names r) (candidates wb).
Proof.
  pose proof (admit_all_inv wb B CORE_SHEETS [] 0%N eq_refl (N.le_0_l B)) as H.
  unfold extractCoreSheets, admitted_names, candidates.
  destruct (admit_all wb B CORE_SHEETS ([], 0%N)) as [ss total].
  destruct H as (H1 & H2 & ext & H3 & H4). simpl in H3. subst ss.
  simpl. auto.
Qed.

Lemma findSheetByName_in (wb : workbook) (t n : jstr) :
  findSheetByName wb t = Some n -> In n (SheetNames wb).
Proof.
  unfold findSheetByName.
  destruct (find _ (SheetNames wb)) as [m|] eqn:Hd.
  - intros [= <-]. apply find_some in Hd. tauto.
  - destruct (SHEET_NAME_ALIASES t) as [als|]; [|discriminate].
    induction als as [|a als IH]; [discriminate|].
    destruct (find (fun n => same_name_ci n a) (SheetNames wb)) as [m|] eqn:Ha.
    + intros [= <-]. apply find_some in Ha. tauto.
    + exact IH.
Qed.

Lemma candidates_in (wb : workbook) (targets : list jstr) (n : jstr) :
  In n (cands wb targets) -> In n (SheetNames wb).
Proof.
  unfold cands. rewrite in_flat_map. intros (t & _ & Ht).
  destruct (findSheetByName wb t) as [m|] eqn:Hf; [|destruct Ht].
  destruct (is_empty m); [destruct Ht|].
  destruct Ht as [<-|[]]. eapply findSheetByName_in; eauto.
Qed.

Definition pl_or_bs (s : ExtractedSheet) : bool :=
  includes (toLowerCase (name s)) (js "pl") || includes (toLowerCase (name s)) (js "bs").

Lemma missing_of_eq (ss : list ExtractedSheet) :
  missing_of ss = if existsb pl_or_bs ss then [] else requiredSheets.
Proof.
  unfold missing_of, required_found. cbn [fold_left requiredSheets].
  fold pl_or_bs. destruct (existsb pl_or_bs ss); reflexivity.
Qed.

(** C1 (counterexample).  Both primary statements present under the aliases
    "Income Statement" and "Balance Sheet" and admitted, yet both canonical
    names are reported missing; and with only "Income Statement" present,
    the admitted sheet is named "Income Statement", not "PL - RAW", and both
    canonical names are reported missing. *)
Lemma C1_counterexample :
  ~ (forall wb B n1 n2,
        findSheetByName wb (js "PL - RAW") = Some n1 ->
        findSheetByName wb (js "BS - RAW") = Some n2 ->
        In n1 (admitted_names (extractCoreSheets wb B)) ->
        In n2 (admitted_names (extractCoreSheets wb B)) ->
        missingRequiredSheets (extractCoreSheets wb B) = [])
  /\
  ~ (forall wb B,
        findSheetByName wb (js "PL - RAW") = Some (js "Income Statement") ->
        findSheetByName wb (js "BS - RAW") = None ->
        In (js "PL - RAW") (admitted_names (extractCoreSheets wb B)) /\
        missingRequiredSheets (extractCoreSheets wb B) = [js "BS - RAW"]).
Proof.
  split.
  - intros H.
    assert (Hm : missingRequiredSheets (extractCoreSheets wb_aliases 150000) = []).
    { apply (H wb_aliases 150000%N (js "Income Statement") (js "Balance Sheet"));
        vm_compute; auto. }
    vm_compute in Hm. discriminate Hm.
  - intros H.
    destruct (H wb_income_only 150000%N) as [_ Hm]; [vm_compute; reflexivity ..|].
    vm_compute in Hm. discriminate Hm.
Qed.

(** C1 (amended).  Admitted sheets keep the workbook's own tab names; the
    required-sheet check is a loose test on those names: when an admitted
    name contains "pl" and one contains "bs" (case-insensitively), nothing is
    reported missing, and when no admitted name contains either, both
    "PL - RAW" and "BS - RAW" are reported missing. *)
Theorem C1_required_sheets_loose_check (wb : workbook) (B : N) :
  let r := extractCoreSheets wb B in
  (forall s, In s (sheets r) -> In (name s) (SheetNames wb)) /\
  ((exists s, In s (sheets r) /\ includes (toLowerCase (name s)) (js "pl") = true) ->
   (exists s, In s (sheets r) /\ includes (toLowerCase (name s)) (js "bs") = true) ->
   missingRequiredSheets r = []) /\
  ((forall s, In s (sheets r) ->
       includes (toLowerCase (name s)) (js "pl") = false /\
       includes (toLowerCase (name s)) (js "bs") = false) ->
   missingRequiredSheets r = [js "PL - RAW"; js "BS - RAW"]).
Proof.
  intros r.
  assert (Hm : missingRequiredSheets r = missing_of (sheets r)).
  { unfold r, extractCoreSheets.
    destruct (admit_all wb B CORE_SHEETS ([], 0%N)); reflexivity. }
  rewrite Hm, missing_of_eq.
  destruct (extract_inv wb B) as (_ & _ & Hsub). fold r in Hsub.
  split; [|split].
  - intros s Hs. apply (candidates_in wb CORE_SHEETS).
    apply (subseq_incl _ _ Hsub). unfold admitted_names. apply in_map. exact Hs.
  - intros (s & Hs & Hpl) _.
    assert (Hex : existsb pl_or_bs (sheets r) = true).
    { apply existsb_exists. exists s. split; [exact Hs|].
      unfold pl_or_bs. rewrite Hpl. reflexivity. }
    rewrite Hex. reflexivity.
  - intros Hno.
    assert (Hex : existsb pl_or_bs (sheets r) = false).
    { destruct (existsb pl_or_bs (sheets r)) eqn:E; [|reflexivity].
      apply existsb_exists in E. destruct E as (s & Hs & Hp).
      destruct (Hno s Hs) as [H1 H2]. unfold pl_or_bs in Hp.
      rewrite H1, H2 in Hp. discriminate Hp. }
    rewrite Hex. reflexivity.
Qed.

(** C2 (counterexample).  Greedy admission is not monotone in the budget:
    with tabs of 5, 6 and 1 estimated tokens, the budget 6 admits
    "PL - RAW" and "BS - RAW", the budget 11 admits "PL - RAW" and
    "Dynamic PL" but not "BS - RAW". *)
Lemma C2_counterexample :
  ~ (forall wb B1 B2, (B1 < B2)%N ->
       incl (admitted_names (extractCoreSheets wb B1))
            (admitted_names (extractCoreSheets wb B2)) /\
       (totalTokens (extractCoreSheets wb B1) <= B1)%N /\
       (totalTokens (extractCoreSheets wb B2) <= B2)%N).
Proof.
  intros H.
  destruct (H wb_greedy 6%N 11%N) as [Hi _]; [lia|].
  assert (Hin : In (js "BS - RAW") (admitted_names (extractCoreSheets wb_greedy 6))).
  { vm_compute. auto. }
  apply Hi in Hin. vm_compute in Hin.
  destruct Hin as [E|[E|[]]]; discriminate E.
Qed.

(** C2 (amended).  For every workbook and budget, the admitted sheets are a
    sub-sequence, in priority order, of the tabs the core-sheet names
    resolve to; the running total is the sum of their estimates and stays
    within the budget.  Admission is greedy, so it is not monotone in the
    budget ([C2_counterexample]). *)
Theorem C2_greedy_admission_within_budget (wb : workbook) (B : N) :
  let r := extractCoreSheets wb B in
  subseq (admitted_names r) (candidates wb) /\
  totalTokens r = sum_tokens (sheets r) /\
  (totalTokens r <= B)%N.
Proof.
  destruct (extract_inv wb B) as (H1 & H2 & H3). simpl. auto.
Qed.

End ExcelFacts.

Module StringFacts.

Lemma jeqb_eq (a b : jstr) : jeqb a b = true <-> a = b.
Proof.
  revert b; induction a as [|x a IH]; intros [|y b]; simpl; split; intros H;
    try discriminate; try reflexivity.
  - apply andb_prop in H as [H1 H2]. apply Z.eqb_eq in H1. apply IH in H2. subst. reflexivity.
  - injection H as -> ->. rewrite Z.eqb_refl. simpl. apply IH. reflexivity.
Qed.

Lemma jeqb_false (a b : jstr) : jeqb a b = false <-> a <> b.
Proof.
  rewrite <- jeqb_eq. destruct (jeqb a b); split; congruence.
Qed.

End StringFacts.

Module FormatFacts.
Import Format StringFacts.

Lemma NA_when (v : value) :
  na_value v = true -> formatFinancialNumber v = NA_result.
Proof. intros H. unfold formatFinancialNumber. rewrite H. reflexivity. Qed.

Lemma isNA_false (v : value) :
  na_value v = false -> isNA (formatFinancialNumber v) = false.
Proof.
  intros H. unfold formatFinancialNumber. rewrite H. cbv zeta.
  repeat match goal with |- context [if ?c then _ else _] => destruct c end;
    reflexivity.
Qed.

(** C6 (counterexample).  "Plan/Actual" is classified N/A (its lower-cased
    text contains "n/a") although it is neither empty nor one of the N/A
    words, and the blank value "   " is not classified N/A although it is
    empty after trimming. *)
Lemma C6_counterexample :
  ~ (forall s : jstr,
       (isNA (formatFinancialNumber (VString s)) = true /\
        text (formatFinancialNumber (VString s)) = js "N/A")
       <->
       (trim s = [] \/ toLowerCase (trim s) = js "n/a" \/
        toLowerCase (trim s) = js "n/m" \/ toLowerCase (trim s) = js "nm" \/
        includes (toLowerCase (trim s)) (js "data not provided") = true)).
Proof.
  intros H.
  destruct (H (js "Plan/Actual")) as [H1 _].
  assert (Hl : isNA (formatFinancialNumber (VString (js "Plan/Actual"))) = true /\
               text (formatFinancialNumber (VString (js "Plan/Actual"))) = js "N/A")
    by (split; vm_compute; reflexivity).
  destruct (H1 Hl) as [E|[E|[E|[E|E]]]]; vm_compute in E; discriminate E.
Qed.

Lemma includes_head_in (s p : jstr) (c : Z) : includes s (c :: p) = true -> In c s.
Proof.
  induction s as [|x s IH]; [discriminate|].
  cbn [includes startsWith]. rewrite orb_true_iff. intros [H|H].
  - apply andb_prop in H as [H _]. apply Z.eqb_eq in H. left. exact H.
  - right. apply IH, H.
Qed.

Lemma number_lower (r : jstr) :
  forallb (fun c => is_digit c || existsb (Z.eqb c) [46; 101; 43; 45]%Z) r = true ->
  toLowerCase r = r.
Proof.
  induction r as [|c r IH]; [reflexivity|]. cbn [forallb toLowerCase map].
  intros H. apply andb_prop in H as [Hc H]. change (map lower_cu r) with (toLowerCase r).
  rewrite IH by exact H. f_equal.
  assert (Hr : (43 <= c <= 57 \/ c = 101)%Z).
  { unfold is_digit in Hc. cbn [existsb] in Hc. rewrite !orb_true_iff, andb_true_iff, !Z.leb_le in Hc.
    rewrite !Z.eqb_eq in Hc. lia. }
  unfold lower_cu, fold_cu.
  destruct (Z.eqb_spec c 8490); [lia|].
  destruct ((65 <=? c)%Z && (c <=? 90)%Z) eqn:E; [|reflexivity].
  apply andb_prop in E as [E1 E2]. apply Z.leb_le in E1, E2. lia.
Qed.

(** A number is never N/A: the text of [Number::toString] holds no "n". *)
Lemma number_not_na (r : jstr) : number_repr r = true -> na_value (VNumber r) = false.
Proof.
  unfold number_repr. rewrite !orb_true_iff. intros [[[H|H]|H]|H];
    try (apply jeqb_eq in H; subst r; vm_compute; reflexivity).
  apply andb_prop in H as [_ Hall].
  assert (Hn : ~ In 110%Z r).
  { intros Hin. rewrite forallb_forall in Hall. specialize (Hall _ Hin).
    vm_compute in Hall. discriminate Hall. }
  unfold na_value. rewrite (number_lower r Hall).
  destruct (includes r (js "n/a")) eqn:E1; [apply includes_head_in in E1; contradiction|].
  destruct (includes r (js "data not provided")) eqn:E2;
    [apply includes_head_in in E2; vm_compute in E2|].
  { exfalso. rewrite forallb_forall in Hall. specialize (Hall _ E2).
    vm_compute in Hall. discriminate Hall. }
  destruct (jeqb r (js "n/m")) eqn:E3; [apply jeqb_eq in E3; subst r; exfalso; apply Hn; left; reflexivity|].
  destruct (jeqb r (js "nm")) eqn:E4; [apply jeqb_eq in E4; subst r; exfalso; apply Hn; left; reflexivity|].
  reflexivity.
Qed.

(** C6 (amended).  [formatFinancialNumber] classifies a string N/A (isNA,
    text "N/A") exactly when it is empty, its lower-cased text contains
    "n/a" or "data not provided", or equals "n/m" or "nm"; the test does not
    trim.  [null] and [undefined] are N/A, and a number never is. *)
Theorem C6_na_classification (s : jstr) :
  ((isNA (formatFinancialNumber (VString s)) = true /\
    text (formatFinancialNumber (VString s)) = js "N/A")
   <->
   (s = [] \/ includes (toLowerCase s) (js "n/a") = true \/
    includes (toLowerCase s) (js "data not provided") = true \/
    toLowerCase s = js "n/m" \/ toLowerCase s = js "nm")) /\
  (isNA (formatFinancialNumber VNull) = true /\
   text (formatFinancialNumber VNull) = js "N/A") /\
  (isNA (formatFinancialNumber VUndefined) = true /\
   text (formatFinancialNumber VUndefined) = js "N/A") /\
  (forall r : jstr, number_repr r = true ->
   isNA (formatFinancialNumber (VNumber r)) = false).
Proof.
  split; [|split; [split; reflexivity|split; [split; reflexivity|]]].
  2:{ intros r Hr. apply isNA_false, number_not_na, Hr. }
  destruct (na_value (VString s)) eqn:Hna.
  - rewrite (NA_when _ Hna). simpl.
    split; [intros _ | intros _; split; reflexivity].
    cbn [na_value] in Hna. rewrite !orb_true_iff in Hna.
    destruct Hna as [[[[H|H]|H]|H]|H].
    + left. destruct s; [reflexivity | discriminate H].
    + tauto.
    + tauto.
    + apply jeqb_eq in H. tauto.
    + apply jeqb_eq in H. tauto.
  - split.
    + intros [HNA _]. rewrite isNA_false in HNA by exact Hna. discriminate HNA.
    + cbn [na_value] in Hna. rewrite !orb_false_iff in Hna.
      destruct Hna as [[[[H0 H1] H2] H3] H4].
      apply jeqb_false in H3. apply jeqb_false in H4.
      intros [H|[H|[H|[H|H]]]]; try congruence.
      subst s. discriminate H0.
Qed.

(** C7 (code bug).  The library check [isRowTotal] treats "ebitda" and
    "ebit" as substrings, the renderer's [isTotalRow] as exact labels: on
    "Adjusted EBITDA" the first says total row, the second does not. *)
Theorem C7_total_checks_disagree :
  isRowTotal (js "Adjusted EBITDA") = true /\
  isTotalRow (js "Adjusted EBITDA") = false.
Proof. split; vm_compute; reflexivity. Qed.

(** C6: the amended statement at concrete values: "Plan/Actual" is N/A,
    the number -1.5 is not. *)
Lemma C6_witness :
  isNA (formatFinancialNumber (VString (js "Plan/Actual"))) = true /\
  number_repr (js "-1.5") = true /\
  isNA (formatFinancialNumber (VNumber (js "-1.5"))) = false /\
  text (formatFinancialNumber (VNumber (js "-1.5"))) = js "(1.5)".
Proof.
  assert (Hn : number_repr (js "-1.5") = true) by (vm_compute; reflexivity).
  split.
  - assert (Hp : includes (toLowerCase (js "Plan/Actual")) (js "n/a") = true)
      by (vm_compute; reflexivity).
    exact (proj1 (proj2 (proj1 (C6_na_classification (js "Plan/Actual")))
                        (or_intror (or_introl Hp)))).
  - split; [exact Hn|]. split; [exact (proj2 (proj2 (proj2 (C6_na_classification []))) _ Hn)|].
    vm_compute. reflexivity.
Defined.

(** C8 (counterexample).  "Subtotal EBITDA" is both a total row and a
    subtotal row. *)
Lemma C8_counterexample :
  ~ (forall label : jstr,
       ~ (isRowTotal label = true /\ isRowSubtotal label = true) /\
       (isRowSubtotal label = true <->
        startsWith (trim (toLowerCase label)) (js "subtotal") = true \/
        startsWith (trim (toLowerCase label)) (js "sub-total") = true)).
Proof.
  intros H. destruct (H (js "Subtotal EBITDA")) as [Hn _].
  apply Hn. split; vm_compute; reflexivity.
Qed.

(** C8 (amended).  [isRowSubtotal] holds exactly when the trimmed,
    lower-cased label starts with "subtotal" or "sub-total"; a subtotal
    label is also a total row exactly when it contains "net income",
    "gross profit", "ebitda" or "ebit". *)
Theorem C8_subtotal_and_total (label : jstr) :
  let lower := trim (toLowerCase label) in
  (isRowSubtotal label = true <->
   startsWith lower (js "subtotal") = true \/ startsWith lower (js "sub-total") = true) /\
  (isRowSubtotal label = true ->
   (isRowTotal label = true <->
    includes lower (js "net income") = true \/ includes lower (js "gross profit") = true \/
    includes lower (js "ebitda") = true \/ includes lower (js "ebit") = true)).
Proof.
  intros lower. unfold isRowSubtotal, isRowTotal. fold lower.
  split; [apply orb_true_iff|].
  intros Hs.
  assert (Hx : exists r, lower = 115%Z :: r).
  { apply orb_true_iff in Hs.
    destruct lower as [|c r]; [destruct Hs as [Hs|Hs]; discriminate Hs|].
    exists r. destruct Hs as [Hs|Hs]; simpl in Hs; apply andb_prop in Hs as [Hc _];
      apply Z.eqb_eq in Hc; subst c; reflexivity. }
  destruct Hx as [r Hr]. rewrite Hr.
  assert (Ht : startsWith (115%Z :: r) (js "total") = false) by reflexivity.
  assert (He : startsWith (115%Z :: r) (js "= ") = false) by reflexivity.
  assert (Hc : jeqb (115%Z :: r) (js "net cash") = false) by reflexivity.
  rewrite Ht, He, Hc. simpl orb. rewrite orb_false_r, !orb_true_iff. tauto.
Qed.

End FormatFacts.

(** ** Reformatting a formatted value (C9) *)

Module FormatIdemFacts.
Import Format StringFacts FormatFacts.

Lemma startsWith_app (s b p : jstr) :
  startsWith s p = true -> startsWith (s ++ b) p = true.
Proof.
  revert s; induction p as [|y p IH]; intros [|x s] H.
  - reflexivity.
  - reflexivity.
  - discriminate H.
  - simpl in *. apply andb_prop in H as [H1 H2]. rewrite H1. simpl. apply IH. exact H2.
Qed.

Lemma startsWith_split (s p : jstr) :
  startsWith s p = true -> s = p ++ skipn (List.length p) s.
Proof.
  revert s; induction p as [|y p IH]; intros [|x s] H.
  - reflexivity.
  - reflexivity.
  - discriminate H.
  - simpl in *. apply andb_prop in H as [H1 H2]. apply Z.eqb_eq in H1. subst.
    f_equal. apply IH. exact H2.
Qed.

Lemma includes_app_l (a m : jstr) (q : jstr) :
  includes m q = true -> includes (a ++ m) q = true.
Proof.
  induction a as [|x a IH]; simpl; intros H; auto.
  rewrite IH by exact H. apply orb_true_r.
Qed.

Lemma includes_app_r (m b q : jstr) :
  includes m q = true -> includes (m ++ b) q = true.
Proof.
  induction m as [|x m IH]; simpl; intros H.
  - destruct q; [destruct b; reflexivity|]. simpl in H. discriminate H.
  - apply orb_true_iff in H as [H|H].
    + pose proof (startsWith_app (x :: m) b q H) as H'. simpl in H'. rewrite H'. reflexivity.
    + rewrite IH by exact H. apply orb_true_r.
Qed.

Lemma trim_start_suffix (s : jstr) : exists p, s = p ++ trim_start s.
Proof.
  induction s as [|c s IH]; [exists []; reflexivity|].
  simpl. destruct (is_ws c).
  - destruct IH as [p Hp]. exists (c :: p). simpl. f_equal. exact Hp.
  - exists []. reflexivity.
Qed.

Lemma trim_start_head (s : jstr) c r : trim_start s = c :: r -> is_ws c = false.
Proof.
  induction s as [|d s IH]; simpl; [discriminate|].
  destruct (is_ws d) eqn:E; auto. intros [= <- _]. exact E.
Qed.

Lemma trim_start_id (s : jstr) :
  (forall c r, s = c :: r -> is_ws c = false) -> trim_start s = s.
Proof.
  destruct s as [|c r]; [reflexivity|]. intros H. simpl. rewrite (H c r eq_refl). reflexivity.
Qed.

Lemma trim_id (t : jstr) :
  (forall c r, t = c :: r -> is_ws c = false) ->
  (forall c r, rev t = c :: r -> is_ws c = false) -> trim t = t.
Proof.
  intros H1 H2. unfold trim, trim_end. rewrite (trim_start_id t H1), (trim_start_id _ H2).
  apply rev_involutive.
Qed.

Lemma trim_ends (s : jstr) :
  (forall c r, trim s = c :: r -> is_ws c = false) /\
  (forall c r, rev (trim s) = c :: r -> is_ws c = false).
Proof.
  unfold trim, trim_end. rewrite rev_involutive. split.
  - intros c r Hc.
    destruct (trim_start_suffix (rev (trim_start s))) as [p Hp].
    apply (f_equal (@rev Z)) in Hp. rewrite rev_involutive, rev_app_distr, Hc in Hp.
    simpl in Hp. apply (trim_start_head s c (r ++ rev p)). rewrite Hp. reflexivity.
  - intros c r Hc. exact (trim_start_head _ c r Hc).
Qed.

Lemma trim_idem (s : jstr) : trim (trim s) = trim s.
Proof. destruct (trim_ends s) as [H1 H2]. apply trim_id; assumption. Qed.

Lemma trim_infix (s : jstr) : exists a b, s = a ++ trim s ++ b.
Proof.
  destruct (trim_start_suffix s) as [p Hp].
  destruct (trim_start_suffix (rev (trim_start s))) as [q Hq].
  apply (f_equal (@rev Z)) in Hq. rewrite rev_involutive, rev_app_distr in Hq.
  exists p, (rev q). unfold trim, trim_end. rewrite Hp at 1. rewrite Hq at 1. reflexivity.
Qed.

Lemma includes_trim_lower (s q : jstr) :
  includes (toLowerCase (trim s)) q = true -> includes (toLowerCase s) q = true.
Proof.
  destruct (trim_infix s) as (a & b & Hab). intros H.
  rewrite Hab. unfold toLowerCase. rewrite !map_app.
  apply includes_app_l, includes_app_r. exact H.
Qed.

Lemma replace_first_length (s p r : jstr) :
  p <> [] -> List.length p = List.length r ->
  List.length (replace_first s p r) = List.length s.
Proof.
  intros Hp Hl. destruct p as [|y p']; [congruence|].
  induction s as [|c s IH].
  - reflexivity.
  - change (replace_first (c :: s) (y :: p') r) with
      (if startsWith (c :: s) (y :: p') then r ++ skipn (List.length (y :: p')) (c :: s)
       else c :: replace_first s (y :: p') r).
    destruct (startsWith (c :: s) (y :: p')) eqn:E.
    + apply startsWith_split in E.
      set (k := skipn (List.length (y :: p')) (c :: s)) in *.
      rewrite E, !length_app, Hl. reflexivity.
    + simpl. rewrite IH. reflexivity.
Qed.

Lemma has_digit_app (a b : jstr) : has_digit (a ++ b) = has_digit a || has_digit b.
Proof. unfold has_digit. apply existsb_app. Qed.

Lemma replace_first_digits (s p r : jstr) :
  p <> [] -> has_digit p = false -> has_digit r = false ->
  has_digit (replace_first s p r) = has_digit s.
Proof.
  intros Hp Hdp Hdr. destruct p as [|y p']; [congruence|].
  induction s as [|c s IH].
  - reflexivity.
  - change (replace_first (c :: s) (y :: p') r) with
      (if startsWith (c :: s) (y :: p') then r ++ skipn (List.length (y :: p')) (c :: s)
       else c :: replace_first s (y :: p') r).
    destruct (startsWith (c :: s) (y :: p')) eqn:E.
    + apply startsWith_split in E.
      set (k := skipn (List.length (y :: p')) (c :: s)) in *.
      rewrite E, !has_digit_app, Hdr, Hdp. reflexivity.
    + unfold has_digit in IH |- *. cbn [existsb]. rewrite IH. reflexivity.
Qed.

(** Replacing the first "-$" by "($" keeps every "($" and every "-(". *)
Lemma replace_minus_dollar_keeps (s q : jstr) :
  (q = [40; 36]%Z \/ q = [45; 40]%Z) ->
  includes s q = true -> includes (replace_first s [45; 36]%Z [40; 36]%Z) q = true.
Proof.
  intros Hq. induction s as [|c s IH]; intros H.
  - destruct Hq as [-> | ->]; discriminate H.
  - change (replace_first (c :: s) [45; 36]%Z [40; 36]%Z) with
      (if startsWith (c :: s) [45; 36]%Z then [40; 36]%Z ++ skipn 2 (c :: s)
       else c :: replace_first s [45; 36]%Z [40; 36]%Z).
    destruct (startsWith (c :: s) [45; 36]%Z) eqn:E.
    + destruct s as [|d s']; [simpl in E; rewrite andb_false_r in E; discriminate E|].
      simpl in E. rewrite andb_true_r in E. apply andb_prop in E as [E1 E2].
      apply Z.eqb_eq in E1, E2. subst c d.
      simpl skipn. simpl in H.
      destruct Hq as [-> | ->]; simpl in H |- *; [reflexivity | exact H].
    + simpl in H |- *. apply orb_true_iff in H as [H|H].
      * destruct Hq as [-> | ->]; destruct s as [|d s']; simpl in H;
          try (rewrite andb_false_r in H; discriminate H);
          rewrite andb_true_r in H; apply andb_prop in H as [H1 H2];
          apply Z.eqb_eq in H1, H2; subst c d; reflexivity.
      * rewrite (IH H). apply orb_true_r.
Qed.

Lemma keep_numeric_head (s : jstr) c r : keep_numeric s = c :: r -> Z.eqb c 43 = false.
Proof.
  intros H. assert (Hin : In c (keep_numeric s)) by (rewrite H; left; reflexivity).
  unfold keep_numeric in Hin. apply filter_In in Hin as [_ Hc].
  unfold is_digit in Hc. apply Z.eqb_neq. intros ->. discriminate Hc.
Qed.

Lemma parseFloat_neg_abs (R : jstr) :
  (forall c r, R = c :: r -> Z.eqb c 45 = false /\ Z.eqb c 43 = false) ->
  small_abs (parseFloat (45%Z :: R)) = small_abs (parseFloat R).
Proof.
  intros HR. unfold parseFloat.
  assert (Hsg : match R with
                | c :: s' => if Z.eqb c 45 then ((-1)%Z, s')
                             else if Z.eqb c 43 then (1%Z, s') else (1%Z, R)
                | [] => (1%Z, R) end = (1%Z, R)).
  { destruct R as [|c r]; [reflexivity|]. destruct (HR c r eq_refl) as [-> ->]. reflexivity. }
  rewrite Hsg. simpl Z.eqb. cbv iota beta.
  destruct (digits_prefix R) as [d1 s2].
  destruct d1, (match s2 with | c :: s3 => if Z.eqb c 46 then fst (digits_prefix s3) else [] | [] => [] end);
    try reflexivity; unfold small_abs; rewrite !Z.abs_mul; reflexivity.
Qed.

Lemma format_eq (v : value) :
  formatFinancialNumber v =
  if na_value v then NA_result
  else if is_dash (trim (value_text v)) then zero_result
  else if zero_of (trim (value_text v)) && negb (includes (trim (value_text v)) (js "%"))
  then zero_result
  else mkFormatted (if converts (trim (value_text v)) then converted (trim (value_text v))
                    else trim (value_text v))
                   (negative_of (trim (value_text v)))
                   (startsWith (trim (value_text v)) (js "+") && has_digit (trim (value_text v)))
                   (zero_of (trim (value_text v))) false.
Proof. reflexivity. Qed.

Lemma na_value_false_na (v : value) :
  na_value v = false -> includes (toLowerCase (value_text v)) (js "n/a") = false.
Proof.
  intros Hna. destruct (includes (toLowerCase (value_text v)) (js "n/a")) eqn:E; [|reflexivity].
  exfalso. destruct v as [s|r| |]; unfold na_value in Hna; cbv beta iota in Hna;
    try discriminate Hna; cbn [value_text] in E; rewrite E, ?orb_true_r in Hna;
    discriminate Hna.
Qed.

Lemma format_string_eq (s : jstr) :
  formatFinancialNumber (VString s) =
  if na_value (VString s) then NA_result
  else if is_dash (trim s) then zero_result
  else if zero_of (trim s) && negb (includes (trim s) (js "%")) then zero_result
  else mkFormatted (if converts (trim s) then converted (trim s) else trim s)
                   (negative_of (trim s))
                   (startsWith (trim s) (js "+") && has_digit (trim s))
                   (zero_of (trim s)) false.
Proof. reflexivity. Qed.

Lemma endsWith_close (y : jstr) : endsWith (y ++ [41%Z]) [41%Z] = true.
Proof. unfold endsWith. rewrite rev_app_distr. reflexivity. Qed.

Lemma converted_close (x : jstr) : exists y, converted x = y ++ [41%Z].
Proof.
  unfold converted. destruct (includes x (js "$")); [|destruct (includes x (js "%"))].
  - eexists; reflexivity.
  - exists (js "(" ++ replace_first x (js "-") []). rewrite <- app_assoc. reflexivity.
  - exists (js "(" ++ replace_first x (js "-") []). rewrite <- app_assoc. reflexivity.
Qed.

Lemma converts_minus (x : jstr) : converts x = true -> exists r, x = 45%Z :: r.
Proof.
  unfold converts. intros H. apply andb_prop in H as [H _]. apply andb_prop in H as [_ H].
  destruct x as [|c r]; [discriminate H|]. simpl in H. rewrite andb_true_r in H.
  apply Z.eqb_eq in H. subst. eexists; reflexivity.
Qed.

Lemma converted_longer (x : jstr) :
  converts x = true -> List.length (converted x) = S (List.length x).
Proof.
  intros H. destruct (converts_minus x H) as [r ->].
  unfold converted. destruct (includes (45%Z :: r) (js "$")); [|destruct (includes (45%Z :: r) (js "%"))].
  - rewrite length_app, replace_first_length; [simpl; lia | discriminate | reflexivity].
  - simpl. rewrite length_app. simpl. lia.
  - simpl. rewrite length_app. simpl. lia.
Qed.

Lemma trim_converted (x : jstr) : converts x = true -> trim (converted x) = converted x.
Proof.
  intros H. destruct (converted_close x) as [y Hy]. rewrite Hy.
  apply trim_id.
  - intros c r Hc. destruct (converts_minus x H) as [r0 ->].
    unfold converted in Hy.
    destruct (includes (45%Z :: r0) (js "$")); [|destruct (includes (45%Z :: r0) (js "%"))].
    + rewrite <- Hy in Hc.
      change (js "-$") with [45; 36]%Z in Hc. change (js "($") with [40; 36]%Z in Hc.
      assert (Hw : exists w', replace_first (45%Z :: r0) [45; 36]%Z [40; 36]%Z = 40%Z :: w'
                             \/ replace_first (45%Z :: r0) [45; 36]%Z [40; 36]%Z = 45%Z :: w').
      { change (replace_first (45%Z :: r0) [45; 36]%Z [40; 36]%Z) with
          (if startsWith (45%Z :: r0) [45; 36]%Z then [40; 36]%Z ++ skipn 2 (45%Z :: r0)
           else 45%Z :: replace_first r0 [45; 36]%Z [40; 36]%Z).
        destruct (startsWith (45%Z :: r0) [45; 36]%Z); [eexists; left; reflexivity | eexists; right; reflexivity]. }
      destruct Hw as [w' [Hw|Hw]]; rewrite Hw in Hc; injection Hc as <- _; reflexivity.
    + rewrite <- Hy in Hc. injection Hc as <- _. reflexivity.
    + rewrite <- Hy in Hc. injection Hc as <- _. reflexivity.
  - intros c r Hc. rewrite rev_app_distr in Hc. injection Hc as <- _. reflexivity.
Qed.

Lemma negative_of_parens (y : jstr) : negative_of (40%Z :: y ++ [41%Z]) = true.
Proof.
  unfold negative_of. change (js "(") with [40%Z]. change (js ")") with [41%Z].
  change (40%Z :: y ++ [41%Z]) with ((40%Z :: y) ++ [41%Z]).
  rewrite (endsWith_close (40%Z :: y)). change (startsWith ((40%Z :: y) ++ [41%Z]) [40%Z]) with true.
  cbn [andb]. rewrite orb_true_r. reflexivity.
Qed.

Lemma keep_numeric_app (a b : jstr) : keep_numeric (a ++ b) = keep_numeric a ++ keep_numeric b.
Proof. unfold keep_numeric. apply filter_app. Qed.

Lemma zero_of_parens (y : jstr) :
  startsWith (keep_numeric (45%Z :: y)) (js "--") = false ->
  zero_of (40%Z :: y ++ [41%Z]) = zero_of (45%Z :: y).
Proof.
  intros Hn. unfold zero_of.
  change (keep_numeric (40%Z :: y ++ [41%Z])) with (keep_numeric (y ++ [41%Z])).
  rewrite keep_numeric_app. change (keep_numeric [41%Z]) with (@nil Z). rewrite app_nil_r.
  change (keep_numeric (45%Z :: y)) with (45%Z :: keep_numeric y) in Hn |- *.
  symmetry. apply parseFloat_neg_abs.
  intros c r Hr. split.
  - rewrite Hr in Hn. change (js "--") with [45; 45]%Z in Hn. simpl in Hn.
    rewrite andb_true_r in Hn. exact Hn.
  - exact (keep_numeric_head y c r Hr).
Qed.

Lemma converted_dollar_first (r : jstr) :
  converted (45%Z :: 36%Z :: r) = 40%Z :: (36%Z :: r) ++ [41%Z].
Proof. reflexivity. Qed.

Lemma converted_no_dollar (r : jstr) :
  includes (45%Z :: r) (js "$") = false ->
  converted (45%Z :: r) = 40%Z :: r ++ [41%Z].
Proof.
  intros H. unfold converted. rewrite H.
  destruct (includes (45%Z :: r) (js "%")); reflexivity.
Qed.

(** C9 (amended).  When the display text of a value is a fixed point of the
    formatter (formatting the text again gives the same text) and the
    numeric characters of the trimmed input do not start with "--", then
    formatting the display text again gives the same flags (isNegative,
    isZero, isNA) as the first formatting. *)
Theorem C9_flags_stable (v : value)
  (Hfix : text (formatFinancialNumber (VString (text (formatFinancialNumber v))))
          = text (formatFinancialNumber v))
  (Hnum : startsWith (keep_numeric (trim (value_text v))) (js "--") = false) :
  flags (formatFinancialNumber (VString (text (formatFinancialNumber v))))
  = flags (formatFinancialNumber v).
Proof.
  destruct (na_value v) eqn:Hna.
  { rewrite (NA_when v Hna). vm_compute. reflexivity. }
  pose proof (na_value_false_na v Hna) as Hna_s.
  rewrite (format_eq v) in Hfix |- *. rewrite Hna in Hfix |- *.
  set (s := value_text v) in *.
  set (sv := trim s) in *.
  destruct (is_dash sv) eqn:Hd; [vm_compute; reflexivity|].
  destruct (zero_of sv && negb (includes sv (js "%"))) eqn:Hz; [vm_compute; reflexivity|].
  set (t := if converts sv then converted sv else sv) in *.
  cbn [text flags isNegative isZero isNA] in Hfix |- *.
  (* the text [t] is not closed under a non-trivial branch *)
  assert (Hend : converts sv = true -> endsWith t (js ")") = true).
  { intros Hc. unfold t. rewrite Hc. destruct (converted_close sv) as [y ->].
    apply endsWith_close. }
  rewrite (format_string_eq t) in Hfix |- *.
  destruct (na_value (VString t)) eqn:Hna'.
  { exfalso. cbn [text NA_result] in Hfix.
    destruct (converts sv) eqn:Hc.
    - specialize (Hend eq_refl). rewrite <- Hfix in Hend. vm_compute in Hend. discriminate Hend.
    - assert (Hl : includes (toLowerCase s) (js "n/a") = true).
      { apply includes_trim_lower. fold sv. unfold t in Hfix. rewrite <- Hfix.
        vm_compute. reflexivity. }
      rewrite Hl in Hna_s. discriminate Hna_s. }
  assert (Ht : trim t = t).
  { unfold t. destruct (converts sv) eqn:Hc;
      [apply trim_converted; exact Hc | apply trim_idem]. }
  rewrite Ht in Hfix |- *.
  destruct (is_dash t) eqn:Hd'.
  { exfalso. cbn [text zero_result] in Hfix.
    destruct (converts sv) eqn:Hc.
    - specialize (Hend eq_refl). rewrite <- Hfix in Hend. vm_compute in Hend. discriminate Hend.
    - unfold t in Hfix. rewrite <- Hfix in Hd. vm_compute in Hd. discriminate Hd. }
  destruct (zero_of t && negb (includes t (js "%"))) eqn:Hz'.
  { exfalso. cbn [text zero_result] in Hfix.
    destruct (converts sv) eqn:Hc.
    - specialize (Hend eq_refl). rewrite <- Hfix in Hend. vm_compute in Hend. discriminate Hend.
    - unfold t in Hfix. rewrite <- Hfix in Hd. vm_compute in Hd. discriminate Hd. }
  cbn [text flags isNegative isZero isNA] in Hfix |- *.
  assert (Hct : converts t = false).
  { destruct (converts t) eqn:E; [|reflexivity]. exfalso.
    apply (f_equal (@List.length Z)) in Hfix. rewrite converted_longer in Hfix by exact E. lia. }
  clear Hfix.
  unfold t in *. destruct (converts sv) eqn:Hc; [|reflexivity].
  assert (Hneg : negative_of sv = true).
  { unfold converts in Hc. apply andb_prop in Hc as [Hc _]. apply andb_prop in Hc as [Hc _]. exact Hc. }
  rewrite Hneg.
  destruct (converts_minus sv Hc) as [rest Hrest].
  rewrite Hrest in *.
  destruct (includes (45%Z :: rest) (js "$")) eqn:Hdol.
  - destruct rest as [|d rest2]; [discriminate Hdol|].
    destruct (Z.eqb d 36) eqn:Hd36.
    + apply Z.eqb_eq in Hd36. subst d.
      rewrite converted_dollar_first, negative_of_parens, zero_of_parens by exact Hnum.
      reflexivity.
    + exfalso.
      set (w := replace_first (d :: rest2) [45; 36]%Z [40; 36]%Z).
      assert (Hrf : replace_first (45%Z :: d :: rest2) [45; 36]%Z [40; 36]%Z = 45%Z :: w).
      { change (replace_first (45%Z :: d :: rest2) [45; 36]%Z [40; 36]%Z) with
          (if startsWith (45%Z :: d :: rest2) [45; 36]%Z
           then [40; 36]%Z ++ skipn 2 (45%Z :: d :: rest2)
           else 45%Z :: replace_first (d :: rest2) [45; 36]%Z [40; 36]%Z).
        simpl startsWith. rewrite Hd36. reflexivity. }
      assert (Hcv : converted (45%Z :: d :: rest2) = (45%Z :: w) ++ [41%Z]).
      { unfold converted. rewrite Hdol. change (js "-$") with [45; 36]%Z.
        change (js "($") with [40; 36]%Z. change (js ")") with [41%Z].
        rewrite Hrf. reflexivity. }
      rewrite Hcv in Hct.
      assert (Hnt : negative_of ((45%Z :: w) ++ [41%Z]) = true).
      { unfold negative_of in Hneg |- *.
        change (js "-") with [45%Z] in *. change (js "(") with [40%Z] in *.
        change (js "($") with [40; 36]%Z in *. change (js "-(") with [45; 40]%Z in *.
        change (startsWith (45%Z :: d :: rest2) [45%Z]) with true in Hneg.
        change (startsWith ((45%Z :: w) ++ [41%Z]) [45%Z]) with true.
        change (startsWith (45%Z :: d :: rest2) [40%Z]) with false in Hneg.
        change (startsWith ((45%Z :: w) ++ [41%Z]) [40%Z]) with false.
        cbn [andb orb] in Hneg |- *. rewrite !orb_false_r in Hneg |- *.
        apply orb_true_iff in Hneg as [[Hn|Hn]%orb_true_iff|Hn]; apply orb_true_iff.
        - left. apply orb_true_iff. left.
          rewrite has_digit_app, <- Hrf, replace_first_digits, Hn;
            [reflexivity | discriminate | reflexivity | reflexivity].
        - left. apply orb_true_iff. right. apply includes_app_r. rewrite <- Hrf.
          apply replace_minus_dollar_keeps; [left; reflexivity | exact Hn].
        - right. apply includes_app_r. rewrite <- Hrf.
          apply replace_minus_dollar_keeps; [right; reflexivity | exact Hn]. }
      unfold converts in Hct. rewrite Hnt in Hct.
      change (startsWith ((45%Z :: w) ++ [41%Z]) (js "-")) with true in Hct.
      change (startsWith ((45%Z :: w) ++ [41%Z]) (js "(")) with false in Hct.
      discriminate Hct.
  - rewrite (converted_no_dollar rest Hdol), negative_of_parens, zero_of_parens by exact Hnum.
    reflexivity.
Qed.

(** C9: "--0%" is displayed as "(-0%)", which the formatter leaves
    unchanged, yet the first formatting does not flag it as zero (the
    numeric part "--0" is not a number) while the second one does. *)
Lemma C9_counterexample :
  text (formatFinancialNumber (VString (text (formatFinancialNumber (VString (js "--0%"))))))
  = text (formatFinancialNumber (VString (js "--0%"))) /\
  text (formatFinancialNumber (VString (js "--0%"))) = js "(-0%)" /\
  flags (formatFinancialNumber (VString (js "--0%"))) = (true, false, false) /\
  flags (formatFinancialNumber (VString (text (formatFinancialNumber (VString (js "--0%"))))))
  = (true, true, false).
Proof. vm_compute. repeat split. Qed.

Lemma C9_witness :
  text (formatFinancialNumber (VString (text (formatFinancialNumber (VString (js "-$5.8K"))))))
  = text (formatFinancialNumber (VString (js "-$5.8K"))) /\
  startsWith (keep_numeric (trim (value_text (VString (js "-$5.8K"))))) (js "--") = false /\
  flags (formatFinancialNumber (VString (text (formatFinancialNumber (VString (js "-$5.8K"))))))
  = flags (formatFinancialNumber (VString (js "-$5.8K"))).
Proof.
  assert (H1 : text (formatFinancialNumber (VString (text (formatFinancialNumber (VString (js "-$5.8K"))))))
               = text (formatFinancialNumber (VString (js "-$5.8K")))) by (vm_compute; reflexivity).
  assert (H2 : startsWith (keep_numeric (trim (value_text (VString (js "-$5.8K"))))) (js "--") = false)
    by (vm_compute; reflexivity).
  split; [exact H1|]. split; [exact H2|].
  exact (C9_flags_stable (VString (js "-$5.8K")) H1 H2).
Defined.

End FormatIdemFacts.

(** ** The section parser (C3, C4, C10) *)

Module ReportFacts.
Import Report StringFacts FormatIdemFacts.

Lemma split_go_cons (m : split_mode) (s : jstr) : exists p ps, split_go m s = p :: ps.
Proof.
  revert m; induction s as [|c s IH]; intros m; simpl; [eauto|].
  assert (Hcf : forall l, exists p ps, cons_first c l = p :: ps)
    by (intros [|q qs]; simpl; eauto).
  destruct m as [bol| |l]; [destruct (bol && header_at (c :: s)); eauto
    | apply IH
    | destruct (is_ws c); [apply IH|destruct (l && header_at (c :: s)); eauto]].
Qed.

Lemma cons_all_nil (l : list jstr) : l <> [] -> cons_all [] l = l.
Proof. destruct l; [congruence|reflexivity]. Qed.

Lemma cons_first_all (c : Z) (t : jstr) (l : list jstr) :
  l <> [] -> cons_first c (cons_all t l) = cons_all (c :: t) l.
Proof. destruct l; [congruence|reflexivity]. Qed.

Lemma cons_all_app (a b : jstr) (l : list jstr) :
  l <> [] -> cons_all a (cons_all b l) = cons_all (a ++ b) l.
Proof. destruct l; [congruence|]. simpl. rewrite app_assoc. reflexivity. Qed.

Lemma split_go_ne (m : split_mode) (s : jstr) : split_go m s <> [].
Proof. destruct (split_go_cons m s) as (p & ps & ->). discriminate. Qed.

Lemma bol_after_last (bol : bool) (s : jstr) :
  bol_after bol s = match rev s with [] => bol | c :: _ => is_lt c end.
Proof.
  revert bol; induction s as [|c s IH]; intros bol; [reflexivity|].
  simpl. rewrite IH. destruct (rev s); reflexivity.
Qed.

Lemma lt_not_hash (c : Z) : is_lt c = true -> Z.eqb c 35 = false.
Proof.
  unfold is_lt. intros H. apply Z.eqb_neq. intros ->. discriminate H.
Qed.

Lemma ends_line_cons (c : Z) (s : jstr) : s <> [] -> ends_line (c :: s) = ends_line s.
Proof.
  unfold ends_line. simpl. destruct (rev s) eqn:E.
  - intros H. apply (f_equal (@rev Z)) in E. rewrite rev_involutive in E. simpl in E. congruence.
  - reflexivity.
Qed.

Lemma header_at_app (x r : jstr) :
  x <> [] -> ends_line x = true -> header_at (x ++ r) = header_at x.
Proof.
  intros Hx He. destruct x as [|a [|b [|d x]]]; [congruence| | |reflexivity].
  - unfold ends_line in He. simpl in He. unfold header_at. simpl.
    rewrite (lt_not_hash a He). reflexivity.
  - unfold ends_line in He. simpl in He. unfold header_at. simpl.
    rewrite (lt_not_hash b He), !andb_false_r. reflexivity.
Qed.

Lemma split_body (bol : bool) (s rest : jstr) :
  no_hdr bol s = true -> ends_line s = true ->
  split_go (Text bol) (s ++ rest) = cons_all s (split_go (Text (bol_after bol s)) rest).
Proof.
  revert bol; induction s as [|c s IH]; intros bol Hn He.
  - simpl. rewrite cons_all_nil by apply split_go_ne. reflexivity.
  - simpl in Hn. apply andb_prop in Hn as [Hh Hn]. apply negb_true_iff in Hh.
    change ((c :: s) ++ rest) with (c :: (s ++ rest)).
    cbn [split_go]. rewrite <- (header_at_app (c :: s) rest) in Hh by (discriminate || exact He).
    change (c :: s ++ rest) with ((c :: s) ++ rest). rewrite Hh.
    destruct s as [|d s].
    + simpl. rewrite <- (cons_first_all c []) by apply split_go_ne.
      rewrite cons_all_nil by apply split_go_ne. reflexivity.
    + rewrite ends_line_cons in He by discriminate.
      change ((c :: d :: s) ++ rest) with (c :: ((d :: s) ++ rest)).
      rewrite (IH (is_lt c) Hn He), cons_first_all by apply split_go_ne. reflexivity.
Qed.

Lemma split_title (t rest : jstr) :
  forallb (fun c => negb (is_lt c)) t = true ->
  split_go (Text false) (t ++ rest) = cons_all t (split_go (Text false) rest).
Proof.
  induction t as [|c t IH]; intros Ht.
  - simpl. rewrite cons_all_nil by apply split_go_ne. reflexivity.
  - simpl in Ht. apply andb_prop in Ht as [Hc Ht]. apply negb_true_iff in Hc.
    simpl. rewrite Hc, (IH Ht), cons_first_all by apply split_go_ne. reflexivity.
Qed.

Lemma wf_block_parts (tb : jstr * jstr) :
  wf_block tb = true ->
  (exists c t', fst tb = c :: t' /\ is_ws c = false /\ is_lt c = false) /\
  trim (fst tb) = fst tb /\
  forallb (fun c => negb (is_lt c)) (fst tb) = true /\
  no_hdr true (snd tb) = true /\ ends_line (snd tb) = true.
Proof.
  destruct tb as [t b]. unfold wf_block. cbn [fst snd].
  intros H. repeat (apply andb_prop in H as [H ?]).
  apply jeqb_eq in H3. repeat split; try assumption.
  destruct t as [|c t']; [discriminate H|].
  exists c, t'. split; [reflexivity|]. split.
  - destruct (trim_ends (c :: t')) as [Hs _]. rewrite H3 in Hs. exact (Hs c t' eq_refl).
  - simpl in H2. apply andb_prop in H2 as [Hc _]. apply negb_true_iff. exact Hc.
Qed.

Lemma indexOf_line (t r : jstr) :
  forallb (fun c => negb (is_lt c)) t = true ->
  indexOf (t ++ 10%Z :: r) [10%Z] = Some (List.length t).
Proof.
  induction t as [|c t IH]; intros Ht; [reflexivity|].
  simpl in Ht. apply andb_prop in Ht as [Hc Ht]. apply negb_true_iff in Hc.
  assert (Hc10 : Z.eqb c 10 = false).
  { apply Z.eqb_neq. intros ->. discriminate Hc. }
  simpl. rewrite Hc10. simpl. rewrite (IH Ht). reflexivity.
Qed.

Lemma section_of_block (tb : jstr * jstr) :
  wf_block tb = true -> section_of_part (part tb) = block_section tb.
Proof.
  intros Hwf. destruct (wf_block_parts tb Hwf) as ((c & t' & Ht & _) & Htr & Hnl & _).
  destruct tb as [t b]. cbn [fst snd] in *.
  unfold section_of_part, part, block_section. cbn [fst snd].
  change ([10%Z] ++ b) with (10%Z :: b). rewrite (indexOf_line t b Hnl). subst t. cbn [List.length].
  unfold slice. rewrite Nat.sub_0_r. cbn [skipn].
  change (c :: t') with ([c] ++ t') at 1.
  rewrite <- app_assoc.
  rewrite firstn_app, firstn_all2 by (simpl; lia).
  replace (S (List.length t') - List.length [c]) with (List.length t') by (simpl; lia).
  rewrite firstn_app, firstn_all, Nat.sub_diag, firstn_O, app_nil_r.
  cbn [app]. rewrite Htr.
  assert (Hs : skipn (S (List.length t')) (t' ++ 10%Z :: b) = b).
  { change (10%Z :: b) with ([10%Z] ++ b). rewrite skipn_app, skipn_all2 by lia.
    replace (S (List.length t') - List.length t') with 1 by lia. reflexivity. }
  change (match t' ++ 10%Z :: b with [] => [] | _ :: l => skipn (List.length t') l end)
    with (skipn (S (List.length t')) (t' ++ 10%Z :: b)).
  rewrite Hs. reflexivity.
Qed.

Lemma split_no_hdr (bol : bool) (s : jstr) : no_hdr bol s = true -> split_go (Text bol) s = [s].
Proof.
  revert bol; induction s as [|c s IH]; intros bol H; [reflexivity|].
  simpl in H. apply andb_prop in H as [Hh H]. apply negb_true_iff in Hh.
  cbn [split_go]. rewrite Hh, (IH _ H). reflexivity.
Qed.

Lemma wf_last_parts (tb : jstr * jstr) :
  wf_last tb = true ->
  (exists c t', fst tb = c :: t' /\ is_ws c = false /\ is_lt c = false) /\
  trim (fst tb) = fst tb /\
  forallb (fun c => negb (is_lt c)) (fst tb) = true /\
  no_hdr true (snd tb) = true.
Proof.
  intros H. unfold wf_last in H. apply andb_prop in H as [Ht Hb].
  assert (Hw : wf_block (fst tb, []) = true).
  { unfold wf_block. cbn [fst snd]. rewrite Ht. reflexivity. }
  destruct (wf_block_parts _ Hw) as (H1 & H2 & H3 & _). cbn [fst] in H1, H2, H3.
  repeat split; assumption.
Qed.

Lemma wf_block_last (tb : jstr * jstr) :
  wf_block tb = wf_last tb && ends_line (snd tb).
Proof. reflexivity. Qed.

(** How the scan splits a block, when its body ends with a line end or
    the block ends the document. *)
Lemma split_block_gen (tb : jstr * jstr) (rest : jstr) :
  wf_last tb = true -> ends_line (snd tb) = true \/ rest = [] ->
  split_go (Text true) (block tb ++ rest) = [] :: cons_all (part tb) (split_go (Text true) rest).
Proof.
  intros Hwf Hor. destruct (wf_last_parts tb Hwf) as ((c & t' & Ht & Hws & Hlt) & _ & Hnl & Hb).
  destruct tb as [t b]. cbn [fst snd] in *. subst t.
  unfold block, part. cbn [fst snd].
  change (js "## ") with [35; 35; 32]%Z.
  change (([35; 35; 32]%Z ++ (c :: t') ++ [10%Z] ++ b) ++ rest)
    with (35%Z :: 35%Z :: 32%Z :: c :: (t' ++ 10%Z :: b) ++ rest).
  cbn [split_go]. change (true && header_at (35%Z :: 35%Z :: 32%Z :: c :: (t' ++ 10%Z :: b) ++ rest))
    with true. cbn iota.
  change (is_ws 32) with true. change (is_lt 32) with false. cbn iota.
  rewrite Hws. cbn [andb]. rewrite Hlt.
  simpl in Hnl. rewrite Hlt in Hnl. simpl in Hnl.
  rewrite <- app_assoc. rewrite (split_title t' _ Hnl).
  change ((10%Z :: b) ++ rest) with (10%Z :: (b ++ rest)). cbn [split_go].
  change (false && header_at (10%Z :: b ++ rest)) with false. cbn iota.
  change (is_lt 10) with true.
  assert (Hmid : split_go (Text true) (b ++ rest) = cons_all b (split_go (Text true) rest)).
  { destruct Hor as [He| ->].
    - rewrite (split_body true b rest Hb He), bol_after_last.
      assert (Hbl : match rev b with [] => true | c0 :: _ => is_lt c0 end = true).
      { unfold ends_line in He. destruct (rev b); [reflexivity|exact He]. }
      rewrite Hbl. reflexivity.
    - rewrite app_nil_r, (split_no_hdr true b Hb). cbn [split_go cons_all].
      rewrite app_nil_r. reflexivity. }
  rewrite Hmid.
  assert (HL : split_go (Text true) rest <> []) by apply split_go_ne.
  rewrite (cons_first_all 10 b _ HL), (cons_all_app t' (10%Z :: b) _ HL), (cons_first_all c _ _ HL).
  reflexivity.
Qed.

Lemma split_blocks_gen (secs : list (jstr * jstr)) :
  wf_blocks secs = true ->
  split_go (Text true) (blocks secs) = [] :: map part secs.
Proof.
  induction secs as [|tb secs IH]; intros H; [reflexivity|].
  change (blocks (tb :: secs)) with (block tb ++ blocks secs).
  destruct secs as [|tb2 secs2].
  - change (blocks []) with (@nil Z). cbn [wf_blocks] in H.
    rewrite (split_block_gen tb [] H (or_intror eq_refl)).
    cbn [split_go cons_all map]. rewrite app_nil_r. reflexivity.
  - change (wf_blocks (tb :: tb2 :: secs2)) with (wf_block tb && wf_blocks (tb2 :: secs2)) in H.
    apply andb_prop in H as [H1 H2]. rewrite wf_block_last in H1.
    apply andb_prop in H1 as [H1 He].
    rewrite (split_block_gen tb _ H1 (or_introl He)), (IH H2).
    cbn [cons_all map]. rewrite app_nil_r. reflexivity.
Qed.

Lemma section_of_last (tb : jstr * jstr) :
  wf_last tb = true -> section_of_part (part tb) = block_section tb.
Proof.
  intros Hwf. destruct (wf_last_parts tb Hwf) as (H1 & H2 & H3 & _).
  destruct tb as [t b]. cbn [fst snd] in *.
  unfold section_of_part, part, block_section. cbn [fst snd].
  change ([10%Z] ++ b) with (10%Z :: b).
  rewrite (indexOf_line t b H3).
  destruct H1 as (c & t' & -> & _). cbn [List.length] in *.
  unfold slice in *. rewrite Nat.sub_0_r in *.
  assert (Hf : forall r : jstr, firstn (S (List.length t')) ((c :: t') ++ 10%Z :: r) = c :: t').
  { intros r. cbn [app firstn]. f_equal. rewrite firstn_app, firstn_all, Nat.sub_diag.
    cbn [firstn]. apply app_nil_r. }
  assert (Hs : forall r : jstr, skipn (S (S (List.length t'))) ((c :: t') ++ 10%Z :: r) = r).
  { intros r. change ((c :: t') ++ 10%Z :: r) with (c :: (t' ++ [10%Z] ++ r)).
    change (skipn (S (S (List.length t'))) (c :: (t' ++ [10%Z] ++ r)))
      with (skipn (S (List.length t')) (t' ++ [10%Z] ++ r)).
    rewrite app_assoc, skipn_app, skipn_all2 by (rewrite length_app; cbn [List.length]; lia).
    replace (S (List.length t') - List.length (t' ++ [10%Z])) with 0
      by (rewrite length_app; cbn [List.length]; lia).
    reflexivity. }
  change (skipn 0 ((c :: t') ++ 10%Z :: b)) with ((c :: t') ++ 10%Z :: b).
  rewrite Hf, Hs, H2. reflexivity.
Qed.

Lemma collect_blocks_gen (secs : list (jstr * jstr)) :
  wf_blocks secs = true ->
  collect_sections (map part secs) = filter_map block_section secs.
Proof.
  induction secs as [|tb secs IH]; intros H; [reflexivity|].
  destruct secs as [|tb2 secs2].
  - cbn [wf_blocks] in H. simpl. rewrite (section_of_last tb H). reflexivity.
  - change (wf_blocks (tb :: tb2 :: secs2)) with (wf_block tb && wf_blocks (tb2 :: secs2)) in H.
    apply andb_prop in H as [H1 H2].
    change (collect_sections (map part (tb :: tb2 :: secs2)))
      with (match section_of_part (part tb) with
            | Some s => s :: collect_sections (map part (tb2 :: secs2))
            | None => collect_sections (map part (tb2 :: secs2)) end).
    rewrite (section_of_block tb H1), (IH H2). reflexivity.
Qed.

(** The sections of a document made of a preamble with no heading line and
    well-formed blocks, the last of which may end without a line end. *)
Lemma pre_sections_gen (p : jstr) (secs : list (jstr * jstr)) :
  no_hdr true p && ends_line p = true -> wf_blocks secs = true ->
  pre_sections (p ++ blocks secs) = filter_map block_section secs.
Proof.
  intros Hp Hs. apply andb_prop in Hp as [Hn He]. unfold pre_sections, split_headers.
  rewrite (split_body true p _ Hn He), bol_after_last.
  assert (Hbl : match rev p with [] => true | c0 :: _ => is_lt c0 end = true).
  { unfold ends_line in He. destruct (rev p); [reflexivity|exact He]. }
  rewrite Hbl, (split_blocks_gen secs Hs). cbn [cons_all tl].
  apply collect_blocks_gen. exact Hs.
Qed.

Lemma insert_perm (x : section) (l : list section) :
  Permutation (insert_by_order x l) (x :: l).
Proof.
  induction l as [|y l IH]; simpl; [reflexivity|].
  destruct (order x <=? order y)%nat; [reflexivity|].
  rewrite IH. apply perm_swap.
Qed.

Lemma sort_perm (l : list section) : Permutation (sort_sections l) l.
Proof.
  induction l as [|x l IH]; simpl; [reflexivity|].
  rewrite insert_perm. apply perm_skip. exact IH.
Qed.

Lemma insert_hd (a : nat) (x : section) (l : list section) :
  a <= order x -> HdRel le a (map order l) -> HdRel le a (map order (insert_by_order x l)).
Proof.
  intros Hx Hl. destruct l as [|y l]; simpl; [constructor; exact Hx|].
  destruct (order x <=? order y)%nat; simpl; constructor; [exact Hx|].
  inversion Hl; assumption.
Qed.

Lemma insert_sorted (x : section) (l : list section) :
  Sorted le (map order l) -> Sorted le (map order (insert_by_order x l)).
Proof.
  induction l as [|y l IH]; intros H; simpl; [repeat constructor|].
  destruct (order x <=? order y)%nat eqn:E; simpl.
  - constructor; [exact H|]. constructor. apply Nat.leb_le. exact E.
  - apply Sorted_inv in H as [H1 H2]. constructor; [apply IH; exact H1|].
    apply insert_hd; [apply Nat.leb_gt in E; lia | exact H2].
Qed.

Lemma sort_sorted (l : list section) : Sorted le (map order (sort_sections l)).
Proof.
  induction l as [|x l IH]; simpl; [constructor|]. apply insert_sorted. exact IH.
Qed.

Lemma sorted_perm_eq (l1 l2 : list nat) :
  StronglySorted le l1 -> StronglySorted le l2 -> Permutation l1 l2 -> l1 = l2.
Proof.
  revert l2; induction l1 as [|x l1 IH]; intros l2 H1 H2 HP.
  - symmetry. apply Permutation_nil. exact HP.
  - destruct l2 as [|y l2]; [apply Permutation_length in HP; discriminate HP|].
    apply StronglySorted_inv in H1 as [H1 F1]. apply StronglySorted_inv in H2 as [H2 F2].
    assert (Hy : In y (x :: l1)) by (apply (Permutation_in _ (Permutation_sym HP)); left; reflexivity).
    assert (Hx : In x (y :: l2)) by (apply (Permutation_in _ HP); left; reflexivity).
    assert (Exy : x = y).
    { destruct Hy as [Hy|Hy]; [exact Hy|]. destruct Hx as [Hx|Hx]; [symmetry; exact Hx|].
      rewrite Forall_forall in F1, F2. specialize (F1 y Hy). specialize (F2 x Hx). lia. }
    subst y. f_equal. apply IH; [exact H1 | exact H2 | exact (Permutation_cons_inv HP)].
Qed.

Lemma filter_insert (k : nat) (x : section) (l : list section) :
  filter (fun s => Nat.eqb (order s) k) (insert_by_order x l)
  = filter (fun s => Nat.eqb (order s) k) (x :: l).
Proof.
  induction l as [|y l IH]; [reflexivity|].
  simpl. destruct (order x <=? order y)%nat eqn:E; [reflexivity|].
  simpl. rewrite IH. simpl.
  destruct (Nat.eqb (order x) k) eqn:Ex, (Nat.eqb (order y) k) eqn:Ey; try reflexivity.
  apply Nat.eqb_eq in Ex, Ey. apply Nat.leb_gt in E. lia.
Qed.

Lemma filter_sort (k : nat) (l : list section) :
  filter (fun s => Nat.eqb (order s) k) (sort_sections l)
  = filter (fun s => Nat.eqb (order s) k) l.
Proof.
  induction l as [|x l IH]; [reflexivity|].
  simpl sort_sections. rewrite filter_insert. simpl. rewrite IH. reflexivity.
Qed.

Lemma insert_ne (x : section) (l : list section) : insert_by_order x l <> [].
Proof. destruct l; simpl; [discriminate|]. destruct (_ <=? _)%nat; discriminate. Qed.

Lemma parse_found (md : jstr) :
  pre_sections md <> [] -> parseReportSections md = sort_sections (pre_sections md).
Proof.
  intros H. unfold parseReportSections.
  destruct (pre_sections md) as [|x l]; [congruence|].
  simpl. destruct (insert_by_order x (sort_sections l)) eqn:E; [|reflexivity].
  exfalso. exact (insert_ne _ _ E).
Qed.

Lemma make_section_def (title c : jstr) (s : section) :
  make_section title c = Some s ->
  exists d, In d sectionDefinitions /\ key s = def_key d /\ order s = def_order d.
Proof.
  unfold make_section. destruct (find _ sectionDefinitions) as [d|] eqn:E; [|discriminate].
  intros [= <-]. exists d. split; [exact (proj1 (find_some _ _ E))|]. split; reflexivity.
Qed.

Lemma defs_order_key (d1 d2 : sectionDef) :
  In d1 sectionDefinitions -> In d2 sectionDefinitions ->
  def_order d1 = def_order d2 -> def_key d1 = def_key d2.
Proof.
  intros H1 H2. simpl in H1, H2.
  repeat (destruct H1 as [<-|H1]); try contradiction;
  repeat (destruct H2 as [<-|H2]); try contradiction; simpl; congruence.
Qed.

Lemma collect_def (parts : list jstr) (s : section) :
  In s (collect_sections parts) ->
  exists d, In d sectionDefinitions /\ key s = def_key d /\ order s = def_order d.
Proof.
  induction parts as [|q parts IH]; simpl; [contradiction|].
  destruct (section_of_part q) as [s'|] eqn:E; [|exact IH].
  intros [<-|H]; [|exact (IH H)].
  unfold section_of_part in E. exact (make_section_def _ _ _ E).
Qed.

Lemma title_order_block (tb : jstr * jstr) :
  title_order (fst tb) = match block_section tb with Some s => order s | None => 0 end.
Proof.
  unfold title_order, block_section, make_section.
  destruct (find _ sectionDefinitions); reflexivity.
Qed.

Lemma orders_blocks (secs : list (jstr * jstr)) :
  ~ In 0 (map (fun tb => title_order (fst tb)) secs) ->
  map order (filter_map block_section secs) = map (fun tb => title_order (fst tb)) secs.
Proof.
  induction secs as [|tb secs IH]; intros H; [reflexivity|].
  simpl in H. simpl. rewrite title_order_block in H |- *.
  destruct (block_section tb) as [s|]; [|exfalso; apply H; left; reflexivity].
  simpl. f_equal. apply IH. intros H'. apply H. right. exact H'.
Qed.

(** C3 (amended).  For a document made of an optional preamble with no
    heading line (ending with a line end, so that the first heading starts
    a line) followed by heading blocks "## t" + line end + body b, each
    title t one line with no white space around it, each body with no
    line starting with "##" and white space, and each body but the last
    ending with a line end, whose titles match the nine section patterns
    in some order, the parser returns one section per block, sorted by
    order, so the orders are exactly 1 to 9; the section of a block has
    content "## t" followed by two line ends and the trimmed body: the
    heading line is part of the content. *)
Theorem C3_sections_of_blocks (p : jstr) (secs : list (jstr * jstr))
  (Hp : no_hdr true p && ends_line p = true)
  (Hwf : wf_blocks secs = true)
  (Hperm : Permutation (map (fun tb => title_order (fst tb)) secs) (seq 1 9)) :
  parseReportSections (p ++ blocks secs) = sort_sections (filter_map block_section secs) /\
  map order (parseReportSections (p ++ blocks secs)) = seq 1 9.
Proof.
  assert (Hpre : pre_sections (p ++ blocks secs) = filter_map block_section secs)
    by exact (pre_sections_gen p secs Hp Hwf).
  assert (H0 : ~ In 0 (map (fun tb => title_order (fst tb)) secs)).
  { intros H. apply (Permutation_in _ Hperm) in H. simpl in H. lia. }
  assert (Hord := orders_blocks secs H0).
  assert (Hne : filter_map block_section secs <> []).
  { intros E. rewrite E in Hord. apply Permutation_length in Hperm.
    rewrite <- Hord in Hperm. discriminate Hperm. }
  rewrite parse_found by (rewrite Hpre; exact Hne). rewrite Hpre.
  split; [reflexivity|].
  apply sorted_perm_eq.
  - apply Sorted_StronglySorted; [exact Nat.le_trans | apply sort_sorted].
  - apply Sorted_StronglySorted; [exact Nat.le_trans|]. vm_compute. repeat constructor.
  - rewrite (Permutation_map order (sort_perm _)), Hord. exact Hperm.
Qed.

(** C3: for the nine sample blocks the orders are 1 to 9, but the content
    of the first section repeats the heading line before the body "E". *)
Lemma C3_counterexample :
  forallb wf_block sample_nine = true /\
  map order (parseReportSections (blocks sample_nine)) = seq 1 9 /\
  hd_error (map content (parseReportSections (blocks sample_nine)))
  = Some (js "## 1. Executive Snapshot" ++ [10; 10]%Z ++ js "E").
Proof. vm_compute. repeat split. Qed.
(** C3: the nine sample blocks after the preamble "Intro", the last body
    without its final line end. *)
Lemma C3_witness :
  no_hdr true sample_intro && ends_line sample_intro = true /\
  wf_blocks sample_nine_open = true /\
  Permutation (map (fun tb => title_order (fst tb)) sample_nine_open) (seq 1 9) /\
  map order (parseReportSections (sample_intro ++ blocks sample_nine_open)) = seq 1 9.
Proof.
  assert (H0 : no_hdr true sample_intro && ends_line sample_intro = true) by (vm_compute; reflexivity).
  assert (H1 : wf_blocks sample_nine_open = true) by (vm_compute; reflexivity).
  assert (H2 : Permutation (map (fun tb => title_order (fst tb)) sample_nine_open) (seq 1 9)).
  { vm_compute. apply NoDup_Permutation; [repeat constructor; simpl; lia .. | intros x; simpl; lia]. }
  split; [exact H0|]. split; [exact H1|]. split; [exact H2|].
  exact (proj2 (C3_sections_of_blocks sample_intro sample_nine_open H0 H1 H2)).
Defined.

Lemma collect_none (parts : list jstr) :
  (forall q, In q parts -> section_of_part q = None) -> collect_sections parts = [].
Proof.
  induction parts as [|q parts IH]; intros H; [reflexivity|].
  simpl. rewrite (H q (or_introl eq_refl)). apply IH. intros q' Hq. apply H. right. exact Hq.
Qed.

(** C4 (amended).  For every document: when no heading part (a part of
    the split after the first) yields a section, i.e. no heading title
    matches a section pattern, the parser returns nothing for a blank
    document (empty or white space only) and otherwise the single
    fallback section, whose content is the whole document and whose order
    is 1; when some heading part yields a section, it returns exactly
    those sections sorted by order, so the text before the first heading
    and the parts whose title matches no pattern are in no section. *)
Theorem C4_fallback_or_found (md : jstr) :
  ((forall q, In q (tl (split_headers md)) -> section_of_part q = None) ->
   parseReportSections md = if is_empty (trim md) then [] else [fallback_section md]) /\
  (pre_sections md <> [] -> parseReportSections md = sort_sections (pre_sections md)).
Proof.
  split.
  - intros H. unfold parseReportSections, pre_sections.
    rewrite (collect_none _ H). reflexivity.
  - apply parse_found.
Qed.

(** C4: the preamble "Intro" and the body "B" under the unmatched title
    "Appendix" are in no section, and a document of one space yields no
    section. *)
Lemma C4_counterexample :
  map content (parseReportSections (sample_intro ++ blocks sample_intro_blocks))
  = [js "## Executive Snapshot" ++ [10; 10]%Z ++ js "A"] /\
  parseReportSections (js " ") = [].
Proof. vm_compute. split; reflexivity. Qed.
(** C4: a document without heading and one whose only heading matches no
    pattern are each returned whole as the fallback section. *)
Lemma C4_witness :
  parseReportSections (js "Hello world") = [fallback_section (js "Hello world")] /\
  parseReportSections (js "Just text" ++ [10%Z] ++ js "## Appendix" ++ [10%Z] ++ js "foo")
  = [fallback_section (js "Just text" ++ [10%Z] ++ js "## Appendix" ++ [10%Z] ++ js "foo")].
Proof.
  split.
  - assert (H : forall q, In q (tl (split_headers (js "Hello world"))) -> section_of_part q = None).
    { intros q Hq. vm_compute in Hq. contradiction. }
    rewrite (proj1 (C4_fallback_or_found _) H). vm_compute. reflexivity.
  - assert (H : forall q, In q (tl (split_headers (js "Just text" ++ [10%Z] ++ js "## Appendix"
                                                   ++ [10%Z] ++ js "foo")))
                          -> section_of_part q = None).
    { intros q Hq. vm_compute in Hq. destruct Hq as [<-|[]]. vm_compute. reflexivity. }
    rewrite (proj1 (C4_fallback_or_found _) H). vm_compute. reflexivity.
Defined.
(** C10.  Whenever some heading part yields a section, the parser returns a
    permutation of the sections in the order of their headings, keeps all
    of them (no two are merged), and for every order keeps the sections of
    that order in document order (the sort is stable); sections with the
    same order have the same key. *)
Theorem C10_duplicates_kept_in_order (md : jstr) (Hfound : pre_sections md <> []) :
  Permutation (parseReportSections md) (pre_sections md) /\
  (forall k, filter (fun s => Nat.eqb (order s) k) (parseReportSections md)
             = filter (fun s => Nat.eqb (order s) k) (pre_sections md)) /\
  (forall s1 s2, In s1 (parseReportSections md) -> In s2 (parseReportSections md) ->
     order s1 = order s2 -> key s1 = key s2).
Proof.
  rewrite (parse_found md Hfound). split; [apply sort_perm|]. split; [intros k; apply filter_sort|].
  intros s1 s2 H1 H2 Ho.
  apply (Permutation_in _ (sort_perm _)) in H1, H2.
  destruct (collect_def _ _ H1) as (d1 & D1 & K1 & O1).
  destruct (collect_def _ _ H2) as (d2 & D2 & K2 & O2).
  rewrite K1, K2. apply defs_order_key; [exact D1 | exact D2 | congruence].
Qed.

Lemma C10_witness :
  pre_sections sample_dup <> [] /\
  map key (filter (fun s => Nat.eqb (order s) 9) (parseReportSections sample_dup))
  = [js "risk_controls"; js "risk_controls"]%list /\
  filter (fun s => Nat.eqb (order s) 9) (parseReportSections sample_dup)
  = filter (fun s => Nat.eqb (order s) 9) (pre_sections sample_dup).
Proof.
  assert (H : pre_sections sample_dup <> []) by (vm_compute; discriminate).
  split; [exact H|]. split; [vm_compute; reflexivity|].
  exact (proj1 (proj2 (C10_duplicates_kept_in_order sample_dup H)) 9).
Defined.

End ReportFacts.

(** ** The special-block extractor (C5) *)

Module SpecialFacts.
Import Special.

(** C5 (code bug).  With bold headings, the takeaways items are read from
    the whole match, heading included, and the bullet class [*] lets the
    takeaways block run on over the bold questions heading and its items:
    seven takeaways (two of them heading texts) and no question.  With
    "###" headings the same lists give three takeaways and two questions. *)
Theorem C5_bold_headings_items :
  parseSpecialSections sample_bold =
  Some {| sp_content := [];
          keyTakeaways := [js "*Key Takeaways**"; js "a"; js "b"; js "c";
                           js "*Questions for Management**"; js "q1"; js "q2"];
          questions := []; executiveInsights := [] |} /\
  parseSpecialSections sample_atx =
  Some {| sp_content := js "Intro";
          keyTakeaways := [js "a"; js "b"; js "c"];
          questions := [js "q1"; js "q2"]; executiveInsights := [] |}.
Proof. split; vm_compute; reflexivity. Qed.

End SpecialFacts.

(** ** Workbook preview and validation *)

Module ExcelToolsFacts.
Import Excel ExcelTools.

Lemma preview_fold (wb : workbook) (ts : list jstr) :
  forall found missing,
    fold_left (preview_step wb) ts (found, missing)
    = (found ++ cands wb ts, missing ++ filter (fun t => negb (resolves wb t)) ts).
Proof.
  induction ts as [|t ts IH]; intros found missing; simpl.
  - rewrite !app_nil_r. reflexivity.
  - unfold resolves at 1. fold (cands wb ts).
    destruct (findSheetByName wb t) as [n|] eqn:Hf; simpl.
    + destruct (is_empty n); simpl; rewrite IH, <- !app_assoc; reflexivity.
    + rewrite IH, <- app_assoc. reflexivity.
Qed.

Lemma cands_filter_length (wb : workbook) (ts : list jstr) :
  List.length (cands wb ts) + List.length (filter (fun t => negb (resolves wb t)) ts)
  = List.length ts.
Proof.
  induction ts as [|t ts IH]; simpl; [reflexivity|].
  unfold resolves at 1. fold (cands wb ts).
  destruct (findSheetByName wb t) as [n|]; simpl; [destruct (is_empty n)|]; simpl; lia.
Qed.

(** The names of the alias table are not empty. *)
Lemma aliases_nonempty (k : jstr) (als : list jstr) :
  SHEET_NAME_ALIASES k = Some als -> forall a, In a als -> a <> [].
Proof.
  unfold SHEET_NAME_ALIASES. destruct (find _ _) as [e|] eqn:He; [|discriminate].
  intros [= <-]. apply find_some in He. destruct He as [He _].
  assert (T : forallb (fun e => forallb (fun a => negb (is_empty a)) (snd e))
                      SHEET_NAME_ALIASES_table = true) by (vm_compute; reflexivity).
  rewrite forallb_forall in T. specialize (T e He). rewrite forallb_forall in T.
  intros a Ha. specialize (T a Ha). destruct a; [discriminate | congruence].
Qed.

Lemma same_name_ci_nil (a b : jstr) : same_name_ci a b = true -> b <> [] -> a <> [].
Proof.
  unfold same_name_ci, toLowerCase. intros H Hb ->.
  apply StringFacts.jeqb_eq in H. destruct b; [contradiction | discriminate].
Qed.

(** A non-empty target never resolves to the empty name. *)
Lemma findSheetByName_nonempty (wb : workbook) (t n : jstr) :
  t <> [] -> findSheetByName wb t = Some n -> n <> [].
Proof.
  intros Ht. unfold findSheetByName.
  destruct (find _ (SheetNames wb)) as [m|] eqn:Hd.
  - intros [= <-]. apply find_some in Hd. eapply same_name_ci_nil; [apply Hd | exact Ht].
  - destruct (SHEET_NAME_ALIASES t) as [als|] eqn:Hal; [|discriminate].
    pose proof (aliases_nonempty _ _ Hal) as Hne. clear Hal Hd.
    induction als as [|a als IH]; [discriminate|].
    destruct (find (fun n => same_name_ci n a) (SheetNames wb)) as [m|] eqn:Ha.
    + intros [= <-]. apply find_some in Ha.
      eapply same_name_ci_nil; [apply Ha | apply Hne; left; reflexivity].
    + apply IH. intros b Hb. apply Hne. right. exact Hb.
Qed.

Lemma core_nonempty (t : jstr) : In t CORE_SHEETS -> t <> [].
Proof.
  intros H. simpl in H.
  repeat (destruct H as [<-|H]; [discriminate|]). destruct H.
Qed.

Lemma find_nil (wb : workbook) (t : jstr) : wb = [] -> findSheetByName wb t = None.
Proof.
  intros ->. unfold findSheetByName. simpl.
  destruct (SHEET_NAME_ALIASES t) as [als|]; [|reflexivity].
  induction als; simpl; auto.
Qed.

(** The fuel-free sum of the estimates of the candidate tabs. *)
Lemma admit_all_fits (wb : workbook) (B : N) (ts : list jstr) :
  forall ss total,
    (total + fold_right (fun n acc => (estimateTokens (sheetToCsv wb n) + acc)%N) 0%N
                        (cands wb ts) <= B)%N ->
    map name (fst (admit_all wb B ts (ss, total))) = map name ss ++ cands wb ts.
Proof.
  induction ts as [|t ts IH]; intros ss total H; simpl.
  - rewrite app_nil_r. reflexivity.
  - unfold admit_all in IH |- *. cbn [fold_left admit_step].
    simpl in H. fold (cands wb ts) in H |- *.
    destruct (findSheetByName wb t) as [n|]; [|apply IH; exact H].
    destruct (is_empty n); [apply IH; exact H|].
    simpl in H.
    destruct (B <? total + estimateTokens (sheetToCsv wb n))%N eqn:Hb.
    + apply N.ltb_lt in Hb. lia.
    + rewrite IH; [rewrite map_app, <- app_assoc; reflexivity|]. simpl in H. lia.
Qed.

(** X1.  [previewExtraction] reports as found exactly the tabs the core
    sheet names resolve to, in priority order (the candidates
    [extractCoreSheets] tries), and as missing exactly the core sheet names
    that resolve to no tab, in [CORE_SHEETS] order; the two lists together
    have one entry per core sheet name, and every found name is a tab of
    the workbook. *)
Theorem preview_found_missing (wb : workbook) :
  let p := previewExtraction wb in
  foundSheets p = candidates wb /\
  missingSheets p = filter (fun t => negb (resolves wb t)) CORE_SHEETS /\
  List.length (foundSheets p) + List.length (missingSheets p) = List.length CORE_SHEETS /\
  (forall n, In n (foundSheets p) -> In n (allSheets p)).
Proof.
  cbv zeta. unfold previewExtraction. rewrite preview_fold. cbn [app foundSheets missingSheets allSheets].
  split; [reflexivity|]. split; [reflexivity|].
  split; [apply cands_filter_length|].
  intros n Hn. eapply ExcelFacts.candidates_in. exact Hn.
Qed.

(** X2.  When the budget covers the estimates of all the tabs the core
    sheet names resolve to, [extractCoreSheets] admits exactly the sheets
    [previewExtraction] lists as found, in the same order. *)
Theorem extract_all_found (wb : workbook) (B : N)
  (Hfit : (fold_right (fun n acc => (estimateTokens (sheetToCsv wb n) + acc)%N) 0%N
                      (candidates wb) <= B)%N) :
  admitted_names (extractCoreSheets wb B) = foundSheets (previewExtraction wb).
Proof.
  unfold admitted_names, extractCoreSheets.
  pose proof (admit_all_fits wb B CORE_SHEETS [] 0%N ltac:(simpl; exact Hfit)) as H.
  destruct (admit_all wb B CORE_SHEETS ([], 0%N)) as [ss total]. simpl in H |- *.
  rewrite H. unfold previewExtraction. rewrite preview_fold. reflexivity.
Qed.

Lemma extract_all_found_witness :
  (fold_right (fun n acc => (estimateTokens (sheetToCsv wb_aliases n) + acc)%N) 0%N
              (candidates wb_aliases) <= 10)%N /\
  admitted_names (extractCoreSheets wb_aliases 10) = foundSheets (previewExtraction wb_aliases).
Proof.
  assert (H : (fold_right (fun n acc => (estimateTokens (sheetToCsv wb_aliases n) + acc)%N) 0%N
                          (candidates wb_aliases) <= 10)%N) by (vm_compute; discriminate).
  split; [exact H | exact (extract_all_found wb_aliases 10 H)].
Defined.

(** X3.  For a workbook [XLSX.read] could read, [validateExcelFile] accepts
    it exactly when [previewExtraction] finds at least one core sheet, and
    then reports the number of tabs and no error. *)
Theorem validate_iff_found (wb : workbook) :
  (valid (validateExcelFile (Parsed wb)) = true <-> foundSheets (previewExtraction wb) <> []) /\
  (valid (validateExcelFile (Parsed wb)) = true ->
   sheetCount (validateExcelFile (Parsed wb)) = Some (List.length wb) /\
   error (validateExcelFile (Parsed wb)) = None).
Proof.
  assert (Hf : foundSheets (previewExtraction wb) = candidates wb)
    by (unfold previewExtraction; rewrite preview_fold; reflexivity).
  rewrite Hf. unfold validateExcelFile, SheetNames. rewrite length_map.
  assert (Hc : candidates wb <> [] <->
               existsb (fun n => match findSheetByName wb n with Some _ => true | None => false end)
                       CORE_SHEETS = true).
  { unfold candidates, cands. rewrite existsb_exists. split.
    - intros Hne. destruct (flat_map _ CORE_SHEETS) as [|n l] eqn:E; [contradiction|].
      assert (Hin : In n (flat_map (fun t => match findSheetByName wb t with
                                             | Some n => if is_empty n then [] else [n]
                                             | None => [] end) CORE_SHEETS))
        by (rewrite E; left; reflexivity).
      apply in_flat_map in Hin. destruct Hin as (t & Ht & Hn).
      exists t. split; [exact Ht|]. destruct (findSheetByName wb t); [reflexivity | destruct Hn].
    - intros (t & Ht & Hs). destruct (findSheetByName wb t) as [n|] eqn:Hft; [|discriminate].
      assert (Hn : n <> []) by (eapply findSheetByName_nonempty; [apply core_nonempty, Ht | exact Hft]).
      intros E. assert (Hin : In n (flat_map (fun t => match findSheetByName wb t with
                                             | Some n => if is_empty n then [] else [n]
                                             | None => [] end) CORE_SHEETS)).
      { apply in_flat_map. exists t. split; [exact Ht|]. rewrite Hft.
        destruct n; [contradiction|]. left; reflexivity. }
      rewrite E in Hin. destruct Hin. }
  destruct (Nat.eqb (List.length wb) 0) eqn:Hl.
  - apply Nat.eqb_eq, length_zero_iff_nil in Hl. simpl. split; [|discriminate].
    split; [discriminate|]. intros Hne. apply Hc in Hne. rewrite existsb_exists in Hne.
    destruct Hne as (t & _ & Ht). rewrite (find_nil wb t Hl) in Ht. discriminate.
  - destruct (existsb _ CORE_SHEETS) eqn:He; simpl.
    + split; [split; [intros _; apply Hc; reflexivity | reflexivity]|].
      intros _. split; reflexivity.
    + split; [|discriminate]. split; [discriminate|]. intros Hne. apply Hc in Hne. congruence.
Qed.

Lemma formatForClaude_layout (r : ExtractionResult) (c p : jstr) :
  formatForClaude r c p =
  js "COMPANY: " ++ c ++ [10%Z] ++ js "REPORTING PERIOD ENDING: " ++ p ++ [10%Z]
  ++ [10%Z] ++ rule 61 ++ [10%Z]
  ++ js "FINANCIAL DATA (" ++ number_text (List.length (sheets r))
  ++ js " SHEETS EXTRACTED)" ++ [10%Z] ++ rule 61 ++ [10%Z]
  ++ List.concat (map (fun s => [10%Z] ++ sheet_lines s) (sheets r)).
Proof.
  unfold formatForClaude. cbv zeta.
  generalize (number_text (List.length (sheets r))) as nt. intros nt.
  assert (G : forall ss o, fold_left (fun output sheet =>
               (((output ++ ([10%Z] ++ js "### SHEET: " ++ name sheet ++ [10%Z]))
                 ++ (rule 45 ++ [10%Z])) ++ csv sheet) ++ [10%Z]) ss o
               = o ++ List.concat (map (fun s => [10%Z] ++ sheet_lines s) ss)).
  { induction ss as [|s ss IH]; intros o; cbn [fold_left map List.concat].
    - rewrite app_nil_r. reflexivity.
    - rewrite IH. unfold sheet_lines. rewrite <- ?app_assoc. reflexivity. }
  rewrite G. rewrite <- ?app_assoc. reflexivity.
Qed.

Lemma concat_blocks_in (ss : list ExtractedSheet) (l1 l2 l3 : list ExtractedSheet) s1 s2 :
  ss = l1 ++ s1 :: l2 ++ s2 :: l3 ->
  exists pre mid post,
    List.concat (map (fun s => [10%Z] ++ sheet_lines s) ss)
    = pre ++ [10%Z] ++ sheet_lines s1 ++ mid ++ [10%Z] ++ sheet_lines s2 ++ post.
Proof.
  intros ->. set (f := fun s => [10%Z] ++ sheet_lines s).
  exists (List.concat (map f l1)), (List.concat (map f l2)), (List.concat (map f l3)).
  rewrite map_app, concat_app. change (map f (s1 :: l2 ++ s2 :: l3)) with (f s1 :: map f (l2 ++ s2 :: l3)).
  rewrite map_app, (concat_cons (f s1)), concat_app.
  change (map f (s2 :: l3)) with (f s2 :: map f l3). rewrite concat_cons.
  subst f. cbv beta. rewrite <- ?app_assoc. reflexivity.
Qed.

Lemma formatForClaude_head (r : ExtractionResult) (c p : jstr) :
  exists hd, (exists rest, hd = js "COMPANY: " ++ c ++ [10%Z]
                                ++ js "REPORTING PERIOD ENDING: " ++ p ++ [10%Z] ++ rest) /\
             formatForClaude r c p
             = hd ++ List.concat (map (fun s => [10%Z] ++ sheet_lines s) (sheets r)).
Proof.
  rewrite formatForClaude_layout.
  exists (js "COMPANY: " ++ c ++ [10%Z] ++ js "REPORTING PERIOD ENDING: " ++ p ++ [10%Z]
          ++ [10%Z] ++ rule 61 ++ [10%Z]
          ++ js "FINANCIAL DATA (" ++ number_text (List.length (sheets r))
          ++ js " SHEETS EXTRACTED)" ++ [10%Z] ++ rule 61 ++ [10%Z]).
  split; [eexists; reflexivity|]. rewrite <- ?app_assoc. reflexivity.
Qed.

(** X4.  [formatForClaude] starts with the company line and the period
    line, and writes every extracted sheet as a line end, its "### SHEET:"
    line, a rule of 80 "-" and its CSV text with a final line end, in one
    piece and in the order of [result.sheets]. *)
Theorem formatForClaude_sheets_in_order (r : ExtractionResult) (c p : jstr) :
  (exists rest, formatForClaude r c p =
                js "COMPANY: " ++ c ++ [10%Z] ++ js "REPORTING PERIOD ENDING: " ++ p ++ [10%Z] ++ rest) /\
  (forall s, In s (sheets r) ->
   exists pre post, formatForClaude r c p = pre ++ [10%Z] ++ sheet_lines s ++ post) /\
  (forall l1 l2 l3 s1 s2, sheets r = l1 ++ s1 :: l2 ++ s2 :: l3 ->
   exists pre mid post, formatForClaude r c p
                        = pre ++ [10%Z] ++ sheet_lines s1 ++ mid ++ [10%Z] ++ sheet_lines s2 ++ post).
Proof.
  destruct (formatForClaude_head r c p) as (hd & (rest & Hhd) & L).
  rewrite L. clear L. set (f := fun s => [10%Z] ++ sheet_lines s). split; [|split].
  - exists (rest ++ List.concat (map f (sheets r))). rewrite Hhd, <- ?app_assoc. reflexivity.
  - intros s Hs. apply in_split in Hs. destruct Hs as (l1 & l2 & E). rewrite E.
    exists (hd ++ List.concat (map f l1)), (List.concat (map f l2)).
    rewrite map_app, concat_app. change (map f (s :: l2)) with (f s :: map f l2).
    rewrite concat_cons. subst f. cbv beta. rewrite <- ?app_assoc. reflexivity.
  - intros l1 l2 l3 s1 s2 E. destruct (concat_blocks_in _ _ _ _ _ _ E) as (pre & mid & post & H).
    subst f. rewrite H. exists (hd ++ pre), mid, post. rewrite <- ?app_assoc. reflexivity.
Qed.

(** X5.  The length of [formatForClaude]'s text: 234 code units of fixed
    lines, the company name, the period, the decimal sheet count, and for
    every sheet its name and CSV text plus 95 code units. *)
Theorem formatForClaude_length (r : ExtractionResult) (c p : jstr) :
  List.length (formatForClaude r c p) =
  234 + List.length c + List.length p + List.length (number_text (List.length (sheets r)))
  + fold_right (fun s acc => 95 + List.length (name s) + List.length (csv s) + acc) 0 (sheets r).
Proof.
  rewrite formatForClaude_layout. rewrite !length_app.
  assert (G : forall ss, List.length (List.concat (map (fun s => [10%Z] ++ sheet_lines s) ss))
                         = fold_right (fun s acc => 95 + List.length (name s)
                                                    + List.length (csv s) + acc) 0 ss).
  { induction ss as [|s ss IH]; [reflexivity|].
    cbn [map List.concat fold_right]. rewrite length_app, IH.
    unfold sheet_lines, rule. rewrite !length_app, repeat_length. simpl. lia. }
  rewrite G. unfold rule. rewrite !repeat_length. simpl. lia.
Qed.

End ExcelToolsFacts.

(** ** More properties of the cell formatter *)

Module FormatMoreFacts.
Import Format StringFacts FormatFacts FormatIdemFacts.

Lemma trim_start_app (s b : jstr) :
  trim_start (s ++ b) = match trim_start s with [] => trim_start b | t => t ++ b end.
Proof.
  induction s as [|c s IH]; simpl; [reflexivity|].
  destruct (is_ws c); [exact IH | reflexivity].
Qed.

Lemma trim_start_ws (a : jstr) : forallb is_ws a = true -> trim_start a = [].
Proof.
  induction a as [|c a IH]; simpl; [reflexivity|].
  intros H. apply andb_prop in H. destruct H as [-> H]. exact (IH H).
Qed.

Lemma trim_ws (a : jstr) : forallb is_ws a = true -> trim a = [].
Proof. intros H. unfold trim. rewrite (trim_start_ws a H). reflexivity. Qed.

Lemma trim_end_app_ws (y b : jstr) : forallb is_ws b = true -> trim_end (y ++ b) = trim_end y.
Proof.
  intros Hb. unfold trim_end. rewrite rev_app_distr, trim_start_app.
  rewrite (trim_start_ws (rev b)); [reflexivity|].
  rewrite forallb_forall in Hb |- *. intros x Hx. apply Hb, in_rev, Hx.
Qed.

(** White space around a text does not change its [trim]. *)
Lemma trim_around_ws (a s b : jstr) :
  forallb is_ws a = true -> forallb is_ws b = true -> trim (a ++ s ++ b) = trim s.
Proof.
  intros Ha Hb. unfold trim. rewrite trim_start_app, (trim_start_ws a Ha), trim_start_app.
  destruct (trim_start s) as [|c t] eqn:E.
  - rewrite (trim_start_ws b Hb). reflexivity.
  - apply trim_end_app_ws, Hb.
Qed.

Lemma includes_ws (s p : jstr) c :
  forallb is_ws s = true -> is_ws c = false -> includes s (c :: p) = false.
Proof.
  intros Hs Hc. induction s as [|x s IH]; [reflexivity|].
  simpl in Hs. apply andb_prop in Hs. destruct Hs as [Hx Hs].
  simpl. rewrite IH by exact Hs.
  destruct (Z.eqb x c) eqn:E; [apply Z.eqb_eq in E; congruence | reflexivity].
Qed.

Lemma lower_ws (s : jstr) : forallb is_ws s = true -> toLowerCase s = s.
Proof.
  induction s as [|c s IH]; simpl; [reflexivity|].
  intros H. apply andb_prop in H. destruct H as [Hc H]. rewrite IH by exact H.
  f_equal. unfold lower_cu.
  destruct (Z.eqb_spec c 8490) as [->|_]; [vm_compute in Hc; discriminate Hc|].
  unfold fold_cu. unfold is_ws in Hc.
  destruct ((65 <=? c)%Z && (c <=? 90)%Z) eqn:E; [|reflexivity].
  apply andb_prop in E. destruct E as [E1 E2]. apply Z.leb_le in E1, E2.
  repeat (apply orb_prop in Hc; destruct Hc as [Hc|Hc]);
    repeat match goal with
           | H : (_ && _) = true |- _ => apply andb_prop in H; destruct H
           | H : (_ <=? _)%Z = true |- _ => apply Z.leb_le in H
           | H : Z.eqb _ _ = true |- _ => apply Z.eqb_eq in H
           end; lia.
Qed.

(** A non-empty string of white space only, as [formatFinancialNumber]
    classifies it. *)
Lemma format_blank (s : jstr) :
  s <> [] -> forallb is_ws s = true ->
  formatFinancialNumber (VString s) = mkFormatted [] false false false false.
Proof.
  intros Hne Hws. rewrite format_string_eq, (trim_ws s Hws).
  assert (Hna : na_value (VString s) = false).
  { unfold na_value. rewrite (lower_ws s Hws).
    destruct s as [|c s']; [contradiction|]. cbn [is_empty orb].
    replace (includes (c :: s') (js "n/a")) with false
      by (symmetry; exact (includes_ws (c :: s') [47; 97]%Z 110%Z Hws eq_refl)).
    replace (includes (c :: s') (js "data not provided")) with false
      by (symmetry; exact (includes_ws (c :: s') (tl (js "data not provided")) 100%Z Hws eq_refl)).
    assert (Hc : is_ws c = true) by (simpl in Hws; apply andb_prop in Hws; apply Hws).
    destruct (jeqb (c :: s') (js "n/m")) eqn:E1.
    - apply jeqb_eq in E1. inversion E1; subst. discriminate.
    - destruct (jeqb (c :: s') (js "nm")) eqn:E2; [|reflexivity].
      apply jeqb_eq in E2. inversion E2; subst. discriminate. }
  rewrite Hna. reflexivity.
Qed.

Lemma includes_one (s : jstr) (q : Z) : includes s [q] = true <-> In q s.
Proof.
  induction s as [|c s IH]; simpl; [split; [discriminate | tauto]|].
  rewrite orb_true_iff, andb_true_r, IH, Z.eqb_eq. split; intros [H|H]; auto.
Qed.

Lemma replace_first_keeps (s p r : jstr) (q : Z) :
  ~ In q p -> In q s -> In q (replace_first s p r).
Proof.
  intros Hp. induction s as [|c s IH]; [intros []|].
  intros Hs. destruct p as [|y p']; [simpl; apply in_or_app; right; exact Hs|].
  unfold replace_first; fold replace_first.
  destruct (startsWith (c :: s) (y :: p')) eqn:E.
  - apply startsWith_split in E. apply in_or_app. right.
    rewrite E in Hs. apply in_app_or in Hs. destruct Hs as [H|H]; [contradiction | exact H].
  - destruct Hs as [->|Hs]; [left; reflexivity | right; apply IH, Hs].
Qed.

Lemma converted_keeps_percent (x : jstr) :
  includes x (js "%") = true -> includes (converted x) (js "%") = true.
Proof.
  change (js "%") with [37%Z]. rewrite !includes_one. intros H.
  unfold converted.
  change (js "(") with [40%Z]. change (js ")") with [41%Z]. change (js "-") with [45%Z].
  change (js "-$") with [45; 36]%Z. change (js "($") with [40; 36]%Z.
  assert (K : forall p r, ~ In 37%Z p -> In 37%Z (replace_first x p r))
    by (intros p r Hp; apply replace_first_keeps; assumption).
  destruct (includes x (js "$")).
  - apply in_or_app. left. apply K. simpl. intuition discriminate.
  - destruct (includes x (js "%")); apply in_or_app; right; apply in_or_app; left;
      apply K; simpl; intuition discriminate.
Qed.

(** X6.  A non-empty string made only of white space is not classified as
    N/A (only the empty string is): [formatFinancialNumber] gives it the
    empty text and no flag at all. *)
Theorem format_whitespace_only (s : jstr) (Hne : s <> []) (Hws : forallb is_ws s = true) :
  formatFinancialNumber (VString s) = mkFormatted [] false false false false.
Proof. exact (format_blank s Hne Hws). Qed.

Lemma format_whitespace_only_witness :
  js "   " <> [] /\ forallb is_ws (js "   ") = true /\
  formatFinancialNumber (VString (js "   ")) = mkFormatted [] false false false false.
Proof.
  assert (H1 : js "   " <> []) by discriminate.
  assert (H2 : forallb is_ws (js "   ") = true) by reflexivity.
  split; [exact H1|]. split; [exact H2|]. exact (format_whitespace_only _ H1 H2).
Defined.

(** X7.  [formatFinancialNumber] sets [isNA] exactly when its text is
    "N/A": no other value is displayed as "N/A". *)
Theorem isNA_iff_text_NA (v : value) :
  isNA (formatFinancialNumber v) = true <-> text (formatFinancialNumber v) = js "N/A".
Proof.
  destruct (na_value v) eqn:Hna.
  - rewrite (NA_when v Hna). simpl. split; reflexivity.
  - rewrite (isNA_false v Hna). split; [discriminate|].
    pose proof (na_value_false_na v Hna) as Hna_s.
    rewrite format_eq, Hna. set (s := value_text v) in *.
    destruct (is_dash (trim s)); [simpl; discriminate|].
    destruct (zero_of (trim s) && negb (includes (trim s) (js "%"))); [simpl; discriminate|].
    cbn [text]. destruct (converts (trim s)).
    + destruct (converted_close (trim s)) as (y & ->). intros E.
      apply (f_equal (@rev Z)) in E. rewrite rev_app_distr in E. discriminate.
    + intros E. exfalso.
      assert (L : includes (toLowerCase (trim s)) (js "n/a") = true) by (rewrite E; reflexivity).
      apply includes_trim_lower in L. rewrite L in Hna_s. discriminate.
Qed.

(** X8.  A value classified as zero is shown as the em dash with no other
    flag, unless its text holds "%": a zero percentage keeps its text and
    its sign flags (for example "-0.0%" is shown as "(0.0%)", negative and
    zero). *)
Theorem zero_dash_or_percent (v : value) :
  isZero (formatFinancialNumber v) = true ->
  formatFinancialNumber v = zero_result \/
  includes (text (formatFinancialNumber v)) (js "%") = true.
Proof.
  destruct (na_value v) eqn:Hna; [rewrite (NA_when v Hna); discriminate|].
  rewrite format_eq, Hna. set (s := value_text v).
  destruct (is_dash (trim s)); [left; reflexivity|].
  destruct (zero_of (trim s)) eqn:Hz; [|discriminate].
  destruct (includes (trim s) (js "%")) eqn:Hp; [|left; reflexivity].
  intros _. right. cbn [andb negb text].
  destruct (converts (trim s)); [apply converted_keeps_percent, Hp | exact Hp].
Qed.

Lemma zero_dash_or_percent_witness :
  isZero (formatFinancialNumber (VString (js "-0.0%"))) = true /\
  text (formatFinancialNumber (VString (js "-0.0%"))) = js "(0.0%)" /\
  isNegative (formatFinancialNumber (VString (js "-0.0%"))) = true /\
  (formatFinancialNumber (VString (js "-0.0%")) = zero_result \/
   includes (text (formatFinancialNumber (VString (js "-0.0%")))) (js "%") = true).
Proof.
  assert (H : isZero (formatFinancialNumber (VString (js "-0.0%"))) = true) by (vm_compute; reflexivity).
  split; [exact H|]. split; [vm_compute; reflexivity|]. split; [vm_compute; reflexivity|].
  exact (zero_dash_or_percent _ H).
Defined.

End FormatMoreFacts.

(** ** Rendering helpers *)

Module RenderFacts.
Import Render StringFacts FormatMoreFacts.

(** X9.  In the [td] renderer, whatever the number formatter [fmt]: the
    empty cell and "[object Object]" are shown as "—" with the class
    "financial-na"; a cell [formatMaterialIndicator] recognises is shown as
    its trimmed text with the indicator's class; and a non-empty cell of
    white space only is neither, so it is shown as [fmt] formats it. *)
Theorem td_blank_cells (fmt : jstr -> Format.FormattedNumber) (s : jstr)
  (Hne : s <> []) (Hws : forallb is_ws s = true) :
  td_cell fmt s = td_formatted (fmt s) /\
  td_cell fmt [] = ([js "financial-na"], js "—") /\
  td_cell fmt (js "[object Object]") = ([js "financial-na"], js "—") /\
  (forall (u t c : jstr), u <> [] -> u <> js "[object Object]" ->
   formatMaterialIndicator u = Some (t, c) -> td_cell fmt u = ([c], t) /\ t = trim u).
Proof.
  split; [|split; [reflexivity|split; [reflexivity|]]].
  - unfold td_cell.
    destruct s as [|c s']; [contradiction|].
    assert (Hc : is_ws c = true) by (simpl in Hws; apply andb_prop in Hws; apply Hws).
    replace (jeqb (c :: s') (js "[object Object]")) with false.
    2:{ symmetry. apply jeqb_false. intros E. inversion E; subst. discriminate. }
    cbn [jeqb orb].
    unfold formatMaterialIndicator. rewrite (trim_ws _ Hws). cbn -[js].
    reflexivity.
  - intros u t c Hu Ho Hm. unfold td_cell.
    replace (jeqb u (js "[object Object]")) with false
      by (symmetry; apply jeqb_false; exact Ho).
    replace (jeqb u []) with false by (symmetry; apply jeqb_false; exact Hu).
    cbn [orb]. rewrite Hm. split; [reflexivity|].
    unfold formatMaterialIndicator in Hm.
    repeat match type of Hm with
           | (if ?b then _ else _) = _ => destruct b
           end; first [discriminate Hm | injection Hm as <- _; reflexivity].
Qed.

Lemma td_blank_cells_witness :
  js " " <> [] /\ forallb is_ws (js " ") = true /\
  td_cell (fun x => Format.formatFinancialNumber (Format.VString x)) (js " ") = ([], []) /\
  td_cell (fun x => Format.formatFinancialNumber (Format.VString x)) (js " Yes ")
  = ([cls_yes], js "Yes").
Proof.
  assert (H1 : js " " <> []) by discriminate.
  assert (H2 : forallb is_ws (js " ") = true) by reflexivity.
  destruct (td_blank_cells (fun x => Format.formatFinancialNumber (Format.VString x)) _ H1 H2)
    as (H3 & _ & _ & H4).
  split; [exact H1|]. split; [exact H2|]. split.
  - rewrite H3. vm_compute. reflexivity.
  - apply (H4 (js " Yes ") (js "Yes") cls_yes); [discriminate|discriminate|vm_compute; reflexivity].
Defined.

(** X10.  [formatMaterialIndicator] ignores white space around the value,
    and an indicator it recognises is shown as the trimmed value, which is
    not empty, with one of its three classes. *)
Theorem material_indicator_trimmed (a s b : jstr)
  (Ha : forallb is_ws a = true) (Hb : forallb is_ws b = true) :
  formatMaterialIndicator (a ++ s ++ b) = formatMaterialIndicator s /\
  (forall t c, formatMaterialIndicator s = Some (t, c) ->
   t = trim s /\ t <> [] /\ (c = cls_yes \/ c = cls_no \/ c = cls_na)).
Proof.
  split.
  - unfold formatMaterialIndicator. rewrite (trim_around_ws a s b Ha Hb). reflexivity.
  - intros t c. unfold formatMaterialIndicator.
    destruct (trim s) as [|x r] eqn:E; [vm_compute; discriminate|].
    destruct (_ || _ || _);
      [intros [= <- <-]; split; [reflexivity|]; split; [discriminate|]; left; reflexivity|].
    destruct (_ || _ || _);
      [intros [= <- <-]; split; [reflexivity|]; split; [discriminate|]; right; left; reflexivity|].
    destruct (_ || _ || _ || _);
      [intros [= <- <-]; split; [reflexivity|]; split; [discriminate|]; right; right; reflexivity|].
    discriminate.
Qed.

Lemma material_indicator_trimmed_witness :
  forallb is_ws (js " ") = true /\ forallb is_ws (js "  ") = true /\
  formatMaterialIndicator (js " " ++ js "Yes" ++ js "  ") = Some (js "Yes", cls_yes) /\
  (formatMaterialIndicator (js " " ++ js "Yes" ++ js "  ") = formatMaterialIndicator (js "Yes") /\
   (forall t c, formatMaterialIndicator (js "Yes") = Some (t, c) ->
    t = trim (js "Yes") /\ t <> [] /\ (c = cls_yes \/ c = cls_no \/ c = cls_na))).
Proof.
  assert (H1 : forallb is_ws (js " ") = true) by reflexivity.
  assert (H2 : forallb is_ws (js "  ") = true) by reflexivity.
  split; [exact H1|]. split; [exact H2|]. split; [vm_compute; reflexivity|].
  exact (material_indicator_trimmed _ _ _ H1 H2).
Defined.

(** X11.  [escapeRegex] is injective: two section names give the same
    escaped text only when they are equal. *)
Theorem escapeRegex_injective (a b : jstr) : escapeRegex a = escapeRegex b <-> a = b.
Proof.
  split; [|intros ->; reflexivity].
  revert b. induction a as [|x a IH]; intros [|y b]; simpl; try reflexivity.
  - destruct (regex_special y); discriminate.
  - destruct (regex_special x); discriminate.
  - destruct (regex_special x) eqn:Hx, (regex_special y) eqn:Hy; simpl; intros H;
      inversion H as [H1]; subst.
    + f_equal. apply IH. assumption.
    + discriminate.
    + discriminate.
    + f_equal. apply IH. assumption.
Qed.

Lemma startsWith_app_prefix (s p q : jstr) :
  startsWith s (p ++ q) = true -> startsWith s p = true.
Proof.
  revert s. induction p as [|y p IH]; intros s; [reflexivity|].
  destruct s as [|x s]; simpl; [discriminate|].
  intros H. apply andb_prop in H. destruct H as [-> H]. exact (IH s H).
Qed.

Lemma includes_app_prefix (s p q : jstr) :
  includes s (p ++ q) = true -> includes s p = true.
Proof.
  induction s as [|x s IH]; simpl; intros H.
  - destruct p; [reflexivity|]. destruct (startsWith [] ((z :: p) ++ q)) eqn:E.
    + apply startsWith_app_prefix in E. rewrite E. reflexivity.
    + rewrite orb_false_l in H. exact H.
  - apply orb_prop in H. destruct H as [H|H].
    + apply startsWith_app_prefix in H. rewrite H. reflexivity.
    + rewrite IH by exact H. apply orb_true_r.
Qed.

(** X12.  For every lower-cased heading text, the [h3] and [h4] renderers
    hide the same headings; an [h3] heading shown as the "Key Takeaways"
    callout is shown so as an [h4] too, and an [h3] heading shown as the
    "Questions for Management" callout is an [h4] callout too (the
    takeaways one when it holds "key takeaway"). *)
Theorem heading_views (lower : jstr) :
  (h3_view lower = Hidden <-> h4_view lower = Hidden) /\
  (h3_view lower = TakeawaysCallout -> h4_view lower = TakeawaysCallout) /\
  (h3_view lower = QuestionsCallout ->
   h4_view lower = TakeawaysCallout \/ h4_view lower = QuestionsCallout).
Proof.
  unfold h3_view, h4_view.
  destruct (includes lower (js "executive insight") || includes lower (js "top insight")).
  { split; [tauto|]. split; discriminate. }
  destruct (includes lower (js "key takeaways")) eqn:K.
  { change (js "key takeaways") with (js "key takeaway" ++ js "s") in K.
    rewrite (includes_app_prefix _ _ _ K).
    split; [split; discriminate|]. split; [reflexivity | discriminate]. }
  destruct (includes lower (js "questions") && includes lower (js "management")) eqn:Q.
  - apply andb_prop in Q. destruct Q as [Q _].
    change (js "questions") with (js "question" ++ js "s") in Q.
    rewrite (includes_app_prefix _ _ _ Q).
    destruct (includes lower (js "key takeaway")).
    + split; [split; discriminate|]. split; [discriminate | left; reflexivity].
    + split; [split; discriminate|]. split; [discriminate | right; reflexivity].
  - split; [|split; discriminate].
    destruct (includes lower (js "key takeaway")); [split; discriminate|].
    destruct (includes lower (js "question")); split; discriminate.
Qed.

End RenderFacts.

(* ------------------------------------------------------------------ *)
(** ** The regular-expression model: fuel and matches *)

Module RegexFacts.
Import Regex RegexMeasure.

(** With more fuel than the depth of the pattern plus the length of the
    input, [m] runs out of fuel only when its continuation does. *)
Lemma m_no_oof (f : nat) : forall (r : re) (s : jstr) (pos : nat) (c : cap) k,
  (depth r + List.length s < f)%nat ->
  (forall (x s1 : jstr) (c1 : cap), s = x ++ s1 -> k s1 (pos + List.length x)%nat c1 <> OutOfFuel) ->
  m f r s pos c k <> OutOfFuel.
Proof.
  induction f as [|f IH]; intros r s pos c k Hf Hk; [lia|].
  destruct r as [p|a b|a b|a|a| | |]; cbn [m depth] in *.
  - destruct s as [|x s']; [discriminate|]. destruct (p x); [|discriminate].
    replace (S pos) with (pos + List.length [x])%nat by (simpl; lia). apply Hk; reflexivity.
  - apply IH; [lia|]. intros x s1 c1 ->. rewrite length_app in Hf.
    apply IH; [lia|]. intros y s2 c2 ->.
    rewrite <- Nat.add_assoc, <- length_app. apply Hk. apply app_assoc.
  - destruct (m f a s pos c k) eqn:E.
    + apply IH; [lia|exact Hk].
    + exfalso; revert E; apply IH; [lia|exact Hk].
    + discriminate.
  - lazymatch goal with |- context [m f a s pos c ?k'] => destruct (m f a s pos c k') eqn:E end.
    + specialize (Hk [] s c). rewrite Nat.add_0_r in Hk. apply Hk; reflexivity.
    + exfalso; revert E; apply IH; [lia|]. intros x s1 c1 ->.
      destruct (Nat.eqb_spec (pos + List.length x) pos) as [Heq|Hne]; [discriminate|].
      rewrite length_app in Hf.
      apply IH; [cbn [depth]; destruct x; simpl in *; lia|].
      intros y s2 c2 ->.
      rewrite <- Nat.add_assoc, <- length_app. apply Hk. apply app_assoc.
    + discriminate.
  - apply IH; [lia|]. intros x s1 c1 ->. apply Hk; reflexivity.
  - destruct (Nat.eqb pos 0); [|discriminate].
    specialize (Hk [] s c). rewrite Nat.add_0_r in Hk. apply Hk; reflexivity.
  - destruct s; [|discriminate].
    specialize (Hk [] [] c). rewrite Nat.add_0_r in Hk. apply Hk; reflexivity.
  - specialize (Hk [] s c). rewrite Nat.add_0_r in Hk. apply Hk; reflexivity.
Qed.

(** A match consumes a prefix [x] of the input, ends in a successful call
    of the continuation at [pos + length x], and [x] holds a line feed
    when the pattern needs one. *)
Lemma m_found (f : nat) : forall (r : re) (s : jstr) (pos : nat) (c : cap) k e c',
  m f r s pos c k = Found e c' ->
  exists x s1 c1, s = x ++ s1 /\ k s1 (pos + List.length x)%nat c1 = Found e c'
                  /\ (needs_lf r -> In 10%Z x).
Proof.
  induction f as [|f IH]; intros r s pos c k e c' H; [discriminate|].
  destruct r as [p|a b|a b|a|a| | |]; cbn [m] in H.
  - destruct s as [|y s']; [discriminate|]. destruct (p y) eqn:Ep; [|discriminate].
    exists [y], s', c. split; [reflexivity|]. split.
    + replace (pos + List.length [y])%nat with (S pos) by (simpl; lia). exact H.
    + intros Hn. inversion Hn as [p' Hp| | | |]; subst. left. apply Hp. exact Ep.
  - apply IH in H as (x & s1 & c1 & -> & H1 & Hx).
    apply IH in H1 as (y & s2 & c2 & -> & H2 & Hy).
    exists (x ++ y), s2, c2. split; [apply app_assoc|]. split.
    + rewrite length_app, Nat.add_assoc. exact H2.
    + intros Hn. apply in_or_app. inversion Hn; subst; auto.
  - destruct (m f a s pos c k) eqn:E.
    + apply IH in H as (x & s1 & c1 & -> & H1 & Hx).
      exists x, s1, c1. split; [reflexivity|]. split; [exact H1|].
      intros Hn. inversion Hn; subst; auto.
    + discriminate.
    + inversion H; subst. apply IH in E as (x & s1 & c1 & -> & H1 & Hx).
      exists x, s1, c1. split; [reflexivity|]. split; [exact H1|].
      intros Hn. inversion Hn; subst; auto.
  - lazymatch type of H with context [m f a s pos c ?k'] => destruct (m f a s pos c k') eqn:E end.
    + exists [], s, c. rewrite Nat.add_0_r. split; [reflexivity|]. split; [exact H|].
      intros Hn; inversion Hn.
    + discriminate.
    + inversion H; subst. apply IH in E as (x & s1 & c1 & -> & H1 & _).
      destruct (Nat.eqb (pos + List.length x) pos); [discriminate|].
      apply IH in H1 as (y & s2 & c2 & -> & H2 & _).
      exists (x ++ y), s2, c2. split; [apply app_assoc|]. split.
      * rewrite length_app, Nat.add_assoc. exact H2.
      * intros Hn; inversion Hn.
  - apply IH in H as (x & s1 & c1 & -> & H1 & Hx).
    exists x, s1, (Some (pos, pos + List.length x)%nat). split; [reflexivity|]. split; [exact H1|].
    intros Hn. inversion Hn; subst; auto.
  - destruct (Nat.eqb pos 0); [|discriminate].
    exists [], s, c. rewrite Nat.add_0_r. split; [reflexivity|]. split; [exact H|].
    intros Hn; inversion Hn.
  - destruct s; [|discriminate].
    exists [], [], c. rewrite Nat.add_0_r. split; [reflexivity|]. split; [exact H|].
    intros Hn; inversion Hn.
  - exists [], s, c. rewrite Nat.add_0_r. split; [reflexivity|]. split; [exact H|].
    intros Hn; inversion Hn.
Qed.

Lemma match_at_no_oof (r : re) (s : jstr) (i : nat) :
  (depth r < 1000)%nat -> match_at r s i <> OutOfFuel.
Proof.
  intros Hd. unfold match_at, fuel_for. apply m_no_oof.
  - rewrite length_skipn. lia.
  - intros; discriminate.
Qed.

Lemma match_at_found (r : re) (s : jstr) (i e : nat) (c : cap) :
  match_at r s i = Found e c ->
  exists x s1, skipn i s = x ++ s1 /\ e = (i + List.length x)%nat /\ (needs_lf r -> In 10%Z x).
Proof.
  unfold match_at. intros H. apply m_found in H as (x & s1 & c1 & Hs & Hk & Hx).
  inversion Hk; subst. exists x, s1. auto.
Qed.

Lemma exec_some (r : re) (s : jstr) (i : nat) :
  (depth r < 1000)%nat -> exec r s i <> None.
Proof.
  intros Hd. unfold exec. destruct (List.length s <? i)%nat; [discriminate|].
  generalize (List.length s - i)%nat as n. intros n. revert i.
  induction n as [|n IH]; intros i; cbn [exec_loop];
    destruct (match_at r s i) eqn:E; try discriminate; try apply IH;
    exfalso; exact (match_at_no_oof r s i Hd E).
Qed.

Lemma exec_loop_bounds (n : nat) (r : re) (s : jstr) (i st e : nat) (c : cap) :
  exec_loop n r s i = Some (Some (st, e, c)) ->
  (i <= st <= i + n)%nat /\ exists x s1, skipn st s = x ++ s1 /\ e = (st + List.length x)%nat.
Proof.
  revert i. induction n as [|n IH]; intros i; cbn [exec_loop];
    destruct (match_at r s i) eqn:E; try discriminate.
  - intros H; inversion H; subst. apply match_at_found in E as (x & s1 & Hs & He & _).
    split; [lia|]. exists x, s1. auto.
  - intros H. apply IH in H as [Hb Hx]. split; [lia|exact Hx].
  - intros H; inversion H; subst. apply match_at_found in E as (x & s1 & Hs & He & _).
    split; [lia|]. exists x, s1. auto.
Qed.

Lemma exec_bounds (r : re) (s : jstr) (i st e : nat) (c : cap) :
  exec r s i = Some (Some (st, e, c)) -> (i <= st <= e /\ e <= List.length s)%nat.
Proof.
  unfold exec. destruct (Nat.ltb_spec (List.length s) i) as [Hl|Hl]; [discriminate|].
  intros H. apply exec_loop_bounds in H as [Hb (x & s1 & Hs & ->)].
  apply (f_equal (@List.length Z)) in Hs. rewrite length_skipn, length_app in Hs. lia.
Qed.

Lemma exec_no_lf (r : re) (s : jstr) (i : nat) :
  (depth r < 1000)%nat -> needs_lf r -> ~ In 10%Z s -> exec r s i = Some None.
Proof.
  intros Hd Hn Hs. unfold exec. destruct (List.length s <? i)%nat; [reflexivity|].
  generalize (List.length s - i)%nat as n. intros n. revert i.
  induction n as [|n IH]; intros i; cbn [exec_loop];
    destruct (match_at r s i) eqn:E; try reflexivity; try apply IH;
    try (exfalso; exact (match_at_no_oof r s i Hd E));
    apply match_at_found in E as (x & s1 & Hx & _ & Hlf); exfalso; apply Hs;
    rewrite <- (firstn_skipn i s), Hx; apply in_or_app; right; apply in_or_app; left; auto.
Qed.

Lemma matches_loop_some (r : re) (s : jstr) (n i : nat) :
  (depth r < 1000)%nat -> (List.length s + 2 <= n + i)%nat -> (1 <= n)%nat ->
  matches_loop n r s i <> None.
Proof.
  intros Hd. revert i. induction n as [|n IH]; intros i Hn H1; [lia|].
  cbn [matches_loop]. destruct (exec r s i) as [[[[st e] c]|]|] eqn:E.
  - apply exec_bounds in E.
    assert (Hi : (S i <= (if Nat.eqb e st then S e else e) <= S (List.length s))%nat)
      by (destruct (Nat.eqb_spec e st); lia).
    destruct (matches_loop n r s (if Nat.eqb e st then S e else e)) eqn:E2; [discriminate|].
    exfalso; revert E2; apply IH; lia.
  - discriminate.
  - exfalso; exact (exec_some r s i Hd E).
Qed.

Lemma matches_some (r : re) (s : jstr) : (depth r < 1000)%nat -> matches r s <> None.
Proof. intros Hd. unfold matches. apply matches_loop_some; lia. Qed.

Lemma replace_one_some (r : re) (s rep : jstr) :
  (depth r < 1000)%nat -> exists s', replace_one r s rep = Some s'.
Proof.
  intros Hd. unfold replace_one.
  destruct (exec r s 0) as [[[[st e] c]|]|] eqn:E; eauto.
  exfalso; exact (exec_some r s 0 Hd E).
Qed.

Lemma replace_all_some (r : re) (s rep : jstr) :
  (depth r < 1000)%nat -> exists s', replace_all r s rep = Some s'.
Proof.
  intros Hd. unfold replace_all. destruct (matches r s) eqn:E; [simpl; eauto|].
  exfalso; exact (matches_some r s Hd E).
Qed.

Lemma match_all_some (r : re) (s : jstr) :
  (depth r < 1000)%nat -> exists l, match_all r s = Some l.
Proof.
  intros Hd. unfold match_all. destruct (matches r s) eqn:E; [simpl; eauto|].
  exfalso; exact (matches_some r s Hd E).
Qed.

Lemma match_all_no_lf (r : re) (s : jstr) :
  (depth r < 1000)%nat -> needs_lf r -> ~ In 10%Z s -> match_all r s = Some [].
Proof.
  intros Hd Hn Hs. unfold match_all, matches.
  replace (List.length s + 2)%nat with (S (S (List.length s))) by lia.
  cbn [matches_loop]. rewrite (exec_no_lf r s 0 Hd Hn Hs). reflexivity.
Qed.

Lemma needs_lf_seqs (l : list re) (r : re) : In r l -> needs_lf r -> needs_lf (RSeqs l).
Proof.
  induction l as [|a l IH]; simpl; [tauto|]. intros [->|Hin] Hr.
  - apply needs_seq_l. exact Hr.
  - apply needs_seq_r. exact (IH Hin Hr).
Qed.

Lemma needs_lf_nl : needs_lf nl.
Proof. apply needs_char. intros x Hx. apply Z.eqb_eq in Hx. exact Hx. Qed.

End RegexFacts.

(* ------------------------------------------------------------------ *)
(** ** Special sections: totality and shape of the result *)

Module SpecialMoreFacts.
Import Regex RegexMeasure RegexFacts Special.

Lemma depths_small :
  Forall (fun r => (depth r < 1000)%nat)
    [sectionPattern; takeawaysPattern; questionsPattern; takeawayItem; questionItem;
     takeawayMarker; questionMarker; numberMarker; bulletMarker].
Proof.
  apply Forall_forall. intros r Hr. apply Nat.ltb_lt. revert r Hr. apply forallb_forall.
  vm_compute. reflexivity.
Qed.

Ltac depth_ok := apply (proj1 (Forall_forall _ _) depths_small); simpl; tauto.

Lemma needs_lf_patterns :
  needs_lf sectionPattern /\ needs_lf takeawaysPattern /\ needs_lf questionsPattern.
Proof.
  split; [|split]; (apply needs_lf_seqs with (r := nl); [|exact needs_lf_nl]);
    repeat (first [left; reflexivity | right]).
Qed.

Lemma no_lf_of_bool (s : jstr) : existsb (Z.eqb 10) s = false -> ~ In 10%Z s.
Proof.
  intros H Hin. assert (existsb (Z.eqb 10) s = true) by (apply existsb_exists; exists 10%Z; split; [exact Hin | apply Z.eqb_refl]).
  congruence.
Qed.

(** A string is [good] when it is non-empty and [trim] keeps it. *)
Lemma map_opt_forall {A B : Type} (f : A -> option B) (P : B -> Prop) (l : list A) :
  (forall x, exists y, f x = Some y /\ P y) ->
  exists ys, map_opt f l = Some ys /\ Forall P ys.
Proof.
  intros Hf. induction l as [|x l IH]; simpl.
  - exists []. split; [reflexivity | constructor].
  - destruct (Hf x) as (y & -> & Hy). destruct IH as (ys & -> & Hys).
    exists (y :: ys). split; [reflexivity | constructor; assumption].
Qed.

Lemma filter_nonempty_trimmed (l : list jstr) :
  Forall (fun t => trim t = t) l ->
  Forall (fun t => t <> [] /\ trim t = t) (filter (fun t => negb (is_empty t)) l).
Proof.
  rewrite !Forall_forall. intros H t Ht. apply filter_In in Ht as [Hin He].
  split; [destruct t; [discriminate | congruence] | exact (H t Hin)].
Qed.

Lemma clean_insight_ok (line : jstr) : exists y, clean_insight line = Some y /\ trim y = y.
Proof.
  unfold clean_insight.
  destruct (replace_one_some numberMarker line [] ltac:(depth_ok)) as [l1 ->].
  destruct (replace_one_some bulletMarker l1 [] ltac:(depth_ok)) as [l2 ->].
  exists (trim l2). split; [reflexivity | apply FormatIdemFacts.trim_idem].
Qed.

Lemma extractExecutiveInsights_ok (content : jstr) :
  exists ins after, extractExecutiveInsights content = Some (ins, after)
                    /\ Forall (fun t => t <> [] /\ trim t = t) ins.
Proof.
  unfold extractExecutiveInsights.
  destruct (exec sectionPattern content 0) as [[[[st e] c]|]|] eqn:E.
  - destruct (map_opt_forall clean_insight (fun t => trim t = t)
                (split_nl (match c with Some (a, b) => slice content a b | None => [] end))
                clean_insight_ok) as (lines & -> & Hl).
    eexists _, _. split; [reflexivity|].
    rewrite Forall_forall in *. intros t Ht. apply filter_In in Ht as [Hin He].
    apply andb_prop in He as [He _].
    split; [destruct t; [discriminate | congruence] | exact (Hl t Hin)].
  - eexists _, _. split; [reflexivity | constructor].
  - exfalso. exact (exec_some sectionPattern content 0 ltac:(depth_ok) E).
Qed.

Lemma block_items_ok (item marker : re) (bs : list jstr) :
  (depth item < 1000)%nat -> (depth marker < 1000)%nat ->
  exists its, block_items item marker bs = Some its
              /\ Forall (fun t => t <> [] /\ trim t = t) its.
Proof.
  intros Hi Hm. unfold block_items.
  destruct (map_opt_forall
              (fun b => match match_all item b with
                        | None => None
                        | Some its => map_opt (fun it => option_map trim (replace_one marker it [])) its
                        end)
              (Forall (fun t => trim t = t)) bs) as (texts & -> & Ht).
  - intros b. destruct (match_all_some item b Hi) as [its ->].
    apply map_opt_forall. intros it.
    destruct (replace_one_some marker it [] Hm) as [x ->].
    exists (trim x). split; [reflexivity | apply FormatIdemFacts.trim_idem].
  - eexists. split; [reflexivity|]. apply filter_nonempty_trimmed.
    rewrite Forall_forall in *. intros t Hin. apply in_concat in Hin as (l & Hl & Htl).
    specialize (Ht l Hl). rewrite Forall_forall in Ht. exact (Ht t Htl).
Qed.

Lemma extract_step_ok (pat item marker : re) (content : jstr) :
  (depth pat < 1000)%nat -> (depth item < 1000)%nat -> (depth marker < 1000)%nat ->
  exists its c', extract_step pat item marker content = Some (its, c')
                 /\ Forall (fun t => t <> [] /\ trim t = t) its.
Proof.
  intros Hp Hi Hm. unfold extract_step.
  destruct (match_all_some pat content Hp) as [ms ->].
  destruct ms as [|m0 ms].
  - eexists _, _. split; [reflexivity | constructor].
  - destruct (block_items_ok item marker (m0 :: ms) Hi Hm) as (its & -> & Hits).
    destruct (replace_all_some pat content [10%Z] Hp) as [c' ->].
    eexists _, _. split; [reflexivity | exact Hits].
Qed.

(** X13.  [parseSpecialSections] always gives a result: the content left
    once the blocks are taken out has no white space at either end, and
    every key takeaway, question and executive insight is non-empty and
    has no white space at either end. *)
Theorem special_total_trimmed (md : jstr) :
  exists sp, parseSpecialSections md = Some sp
             /\ trim (sp_content sp) = sp_content sp
             /\ Forall (fun t => t <> [] /\ trim t = t)
                  (keyTakeaways sp ++ questions sp ++ executiveInsights sp).
Proof.
  unfold parseSpecialSections.
  destruct (extractExecutiveInsights_ok md) as (ins & after & -> & Hins).
  destruct (extract_step_ok takeawaysPattern takeawayItem takeawayMarker after
              ltac:(depth_ok) ltac:(depth_ok) ltac:(depth_ok)) as (tk & c1 & -> & Htk).
  destruct (extract_step_ok questionsPattern questionItem questionMarker c1
              ltac:(depth_ok) ltac:(depth_ok) ltac:(depth_ok)) as (qs & c2 & -> & Hqs).
  eexists. split; [reflexivity|]. cbn [sp_content keyTakeaways questions executiveInsights].
  split; [apply FormatIdemFacts.trim_idem|].
  apply Forall_app; split; [exact Htk|]. apply Forall_app; split; assumption.
Qed.

(** X14.  The three block patterns each need a line end, so a markdown
    text with no line feed has no special block: the content is the
    trimmed text and the three lists are empty. *)
Theorem special_single_line (md : jstr) (Hlf : ~ In 10%Z md) :
  parseSpecialSections md =
  Some {| sp_content := trim md; keyTakeaways := []; questions := [];
          executiveInsights := [] |}.
Proof.
  destruct needs_lf_patterns as (Hs & Ht & Hq).
  unfold parseSpecialSections, extractExecutiveInsights.
  rewrite (exec_no_lf sectionPattern md 0 ltac:(depth_ok) Hs Hlf).
  unfold extract_step.
  rewrite (match_all_no_lf takeawaysPattern md ltac:(depth_ok) Ht Hlf).
  rewrite (match_all_no_lf questionsPattern md ltac:(depth_ok) Hq Hlf).
  reflexivity.
Qed.

Lemma special_single_line_witness :
  ~ In 10%Z (js " **Key Takeaways** - a - b ") /\
  parseSpecialSections (js " **Key Takeaways** - a - b ") =
  Some {| sp_content := js "**Key Takeaways** - a - b"; keyTakeaways := []; questions := [];
          executiveInsights := [] |}.
Proof.
  assert (H : ~ In 10%Z (js " **Key Takeaways** - a - b "))
    by (apply no_lf_of_bool; vm_compute; reflexivity).
  split; [exact H|].
  rewrite (special_single_line _ H). vm_compute. reflexivity.
Defined.

End SpecialMoreFacts.

(* ------------------------------------------------------------------ *)
(** ** The labelled paragraphs of the [p] renderer *)

Module ParagraphFacts.
Import Regex RegexMeasure RegexFacts Render.

(** One step of [m] on each kind of pattern. *)
Lemma m_seq f a b s pos c k :
  m (S f) (RSeq a b) s pos c k = m f a s pos c (fun s1 p1 c1 => m f b s1 p1 c1 k).
Proof. reflexivity. Qed.

Lemma m_char f p x s pos c k :
  m (S f) (RChar p) (x :: s) pos c k = if p x then k s (S pos) c else Fail.
Proof. reflexivity. Qed.

Lemma m_char_nil f p pos c k : m (S f) (RChar p) [] pos c k = Fail.
Proof. reflexivity. Qed.

Lemma m_alt f a b s pos c k :
  m (S f) (RAlt a b) s pos c k
  = match m f a s pos c k with Fail => m f b s pos c k | r' => r' end.
Proof. reflexivity. Qed.

Lemma m_star f a s pos c k :
  m (S f) (RStar a) s pos c k
  = match m f a s pos c (fun s1 p1 c1 =>
            if Nat.eqb p1 pos then Fail else m f (RStar a) s1 p1 c1 k) with
    | Fail => k s pos c
    | r' => r'
    end.
Proof. reflexivity. Qed.

Lemma m_eps f s pos c k : m (S f) REps s pos c k = k s pos c.
Proof. reflexivity. Qed.

Lemma m_start f s c k : m (S f) RStart s 0 c k = k s 0 c.
Proof. reflexivity. Qed.

(** A case-insensitive literal consumes exactly its own length. *)
Lemma m_lit (w : jstr) : forall (f : nat) (s : jstr) (pos : nat) (c : cap) k,
  (List.length w < f)%nat -> startsWith (map fold_cu s) (map fold_cu w) = true ->
  m f (lit true w) s pos c k = k (skipn (List.length w) s) (pos + List.length w)%nat c.
Proof.
  induction w as [|c0 w IH]; intros f s pos c k Hf Hs.
  - destruct f as [|f]; [lia|]. cbn [lit skipn List.length]. rewrite m_eps, Nat.add_0_r. reflexivity.
  - destruct f as [|[|f]]; cbn [List.length] in Hf; [lia|lia|].
    destruct s as [|x s]; [discriminate|].
    cbn [map startsWith] in Hs. apply andb_prop in Hs as [Hx Hs].
    cbn [lit]. rewrite m_seq, m_char. rewrite Hx.
    rewrite (IH (S f) s (S pos) c k ltac:(lia) Hs).
    cbn [skipn List.length]. f_equal. lia.
Qed.

(** [toLowerCase] and the ASCII folding of the [i] flag differ only on
    U+212A, which [toLowerCase] maps to "k". *)
Lemma lower_fold (x : Z) : x <> 8490%Z -> lower_cu x = fold_cu x.
Proof. intros H. unfold lower_cu. destruct (Z.eqb_spec x 8490); [contradiction|reflexivity]. Qed.

Lemma lower_fixed_fold (w : jstr) : toLowerCase w = w -> map fold_cu w = w.
Proof.
  induction w as [|c w IH]; [reflexivity|]. cbn [toLowerCase map].
  intros H. injection H as Hc Hw. rewrite IH by exact Hw. f_equal.
  destruct (Z.eqb_spec c 8490) as [->|Hn]; [discriminate Hc|].
  rewrite <- lower_fold by exact Hn. exact Hc.
Qed.

Lemma starts_lower_fold (s w : jstr) :
  forallb (fun c => negb (Z.eqb c 107)) w = true ->
  startsWith (toLowerCase s) w = true -> startsWith (map fold_cu s) w = true.
Proof.
  revert s. induction w as [|y w IH]; intros s Hk Hs; [reflexivity|].
  destruct s as [|x s]; [discriminate|].
  cbn [forallb] in Hk. apply andb_prop in Hk as [Hy Hk].
  cbn [toLowerCase map startsWith] in Hs |- *. apply andb_prop in Hs as [Hx Hs].
  rewrite (IH s Hk Hs), andb_true_r. apply Z.eqb_eq in Hx. apply Z.eqb_eq.
  destruct (Z.eqb_spec x 8490) as [->|Hn].
  - vm_compute in Hx. subst y. discriminate Hy.
  - rewrite <- lower_fold by exact Hn. exact Hx.
Qed.

Lemma trim_start_length (s : jstr) : (List.length (trim_start s) <= List.length s)%nat.
Proof.
  destruct (FormatIdemFacts.trim_start_suffix s) as [p Hp].
  rewrite Hp at 2. rewrite length_app. lia.
Qed.

Lemma skipn_ws (s : jstr) :
  skipn (List.length s - List.length (trim_start s)) s = trim_start s.
Proof.
  induction s as [|x s IH]; [reflexivity|]. cbn [trim_start].
  destruct (is_ws x).
  - pose proof (trim_start_length s).
    replace (List.length (x :: s) - List.length (trim_start s))%nat
      with (S (List.length s - List.length (trim_start s))) by (cbn [List.length]; lia).
    exact IH.
  - rewrite Nat.sub_diag. reflexivity.
Qed.

(** The greedy [\s*] takes the white space at the head of the input, and
    no less, when what follows it cannot fail. *)
Lemma m_star_ws (s : jstr) : forall (f pos : nat) (c : cap) k,
  (List.length s + 1 < f)%nat -> (forall s1 p1 c1, k s1 p1 c1 <> Fail) ->
  m f (RStar ws) s pos c k
  = k (trim_start s) (pos + (List.length s - List.length (trim_start s)))%nat c.
Proof.
  unfold ws. induction s as [|x s IH]; intros f pos c k Hf Hk.
  - destruct f as [|[|f]]; cbn [List.length] in Hf; [lia|lia|].
    rewrite m_star, m_char_nil. cbn [trim_start List.length]. rewrite Nat.add_0_r. reflexivity.
  - destruct f as [|[|f]]; cbn [List.length] in Hf; [lia|lia|].
    rewrite m_star, m_char. cbn [trim_start]. destruct (is_ws x) eqn:Ex.
    + rewrite (proj2 (Nat.eqb_neq (S pos) pos)) by lia.
      rewrite (IH (S f) (S pos) c k ltac:(lia) Hk).
      pose proof (trim_start_length s).
      replace (pos + (List.length (x :: s) - List.length (trim_start s)))%nat
        with (S pos + (List.length s - List.length (trim_start s)))%nat by (cbn [List.length]; lia).
      destruct (k (trim_start s) (S pos + (List.length s - List.length (trim_start s)))%nat c)
        eqn:E; [exfalso; exact (Hk _ _ _ E)|reflexivity|reflexivity].
    + rewrite Nat.sub_diag, Nat.add_0_r. reflexivity.
Qed.

Lemma replace_one_at0 (r : re) (s rep : jstr) (e : nat) (c : cap) :
  match_at r s 0 = Found e c -> replace_one r s rep = Some (rep ++ skipn e s).
Proof.
  intros H. unfold replace_one, exec.
  destruct (Nat.ltb_spec (List.length s) 0) as [Hl|_]; [lia|].
  destruct (List.length s - 0)%nat; cbn [exec_loop]; rewrite H; reflexivity.
Qed.


Lemma replace_prefix_ws (w s : jstr) :
  toLowerCase w = w -> forallb (fun c => negb (Z.eqb c 107)) w = true ->
  (List.length w < 500)%nat -> startsWith (toLowerCase s) w = true ->
  replace_one (RSeqs [RStart; lit true w; RStar ws]) s []
  = Some (trim_start (skipn (List.length w) s)).
Proof.
  intros Hw Hk Hlen Hs.
  set (s' := skipn (List.length w) s).
  assert (Hl' : (List.length s' <= List.length s)%nat)
    by (unfold s'; rewrite length_skipn; lia).
  assert (H : match_at (RSeqs [RStart; lit true w; RStar ws]) s 0
              = Found (List.length w + (List.length s' - List.length (trim_start s')))%nat None).
  { unfold match_at, fuel_for, RSeqs. cbn [fold_right skipn].
    remember (1000 * (List.length s + 1))%nat as F eqn:HF.
    destruct F as [|[|[|[|F]]]]; [lia..|].
    rewrite m_seq, m_start. cbv beta. rewrite m_seq.
    rewrite m_lit by first [lia | rewrite (lower_fixed_fold w Hw); exact (starts_lower_fold s w Hk Hs)].
    cbv beta.
    rewrite m_seq. fold s'.
    rewrite m_star_ws; [rewrite m_eps; reflexivity | lia |].
    intros s1 p1 c1. rewrite m_eps. discriminate. }
  rewrite (replace_one_at0 _ _ _ _ _ H). cbn [app].
  rewrite Nat.add_comm, <- skipn_skipn. fold s'. rewrite skipn_ws. reflexivity.
Qed.

Lemma fold_cu_colon (x : Z) : fold_cu x = 58%Z -> x = 58%Z.
Proof.
  unfold fold_cu. destruct ((65 <=? x)%Z && (x <=? 90)%Z) eqn:E; [|auto].
  apply andb_prop in E as [E1 _]. apply Z.leb_le in E1. lia.
Qed.

Lemma replace_observations (s : jstr) :
  startsWith (toLowerCase s) (js "observations") = true ->
  replace_one observationsPrefix s []
  = Some (trim_start (match skipn 12 s with x :: r => if Z.eqb x 58 then r else x :: r | [] => [] end)).
Proof.
  intros Hs.
  assert (Hs' : startsWith (map fold_cu s) (map fold_cu (js "observations")) = true)
    by exact (starts_lower_fold s (js "observations") eq_refl Hs).
  assert (Hl' : (List.length (skipn 12 s) <= List.length s)%nat)
    by (rewrite length_skipn; lia).
  assert (H : exists e, match_at observationsPrefix s 0 = Found e None
                        /\ skipn e s = trim_start (match skipn 12 s with x :: r => if Z.eqb x 58 then r else x :: r | [] => [] end)).
  { unfold match_at, fuel_for, observationsPrefix, RSeqs. cbn [fold_right].
    change (skipn 0 s) with s.
    remember (1000 * (List.length s + 1))%nat as F eqn:HF.
    destruct F as [|[|[|[|[|[|F]]]]]]; [lia..|].
    rewrite m_seq, m_start. cbv beta. rewrite m_seq.
    rewrite m_lit by first [exact Hs' | vm_compute; lia].
    change (List.length (js "observations")) with 12%nat. cbv beta.
    rewrite m_seq. unfold ROpt. rewrite m_alt.
    change (lit true (js ":")) with (RSeq (RChar (fun x => Z.eqb (fold_cu x) (fold_cu 58))) REps).
    rewrite m_seq.
    destruct (skipn 12 s) as [|x r] eqn:Es.
    - rewrite m_char_nil, m_eps. cbv beta. rewrite m_seq.
      rewrite m_star_ws; [rewrite m_eps | cbn [List.length]; lia |].
      + eexists. split; [reflexivity|]. cbn [trim_start List.length].
        replace (0 + 12 + (0 - 0))%nat with (0 + 12)%nat by lia.
        rewrite <- skipn_skipn, Es. reflexivity.
      + intros s1 p1 c1. rewrite m_eps. discriminate.
    - rewrite m_char. replace (fold_cu 58) with 58%Z by reflexivity.
      destruct (Z.eqb_spec (fold_cu x) 58) as [Hx|Hx].
      + apply fold_cu_colon in Hx. subst x. cbv beta. rewrite m_eps. cbv beta.
        rewrite m_seq. cbn [List.length] in Hl'.
        rewrite m_star_ws; [rewrite m_eps | lia |].
        * eexists. split; [reflexivity|]. rewrite Z.eqb_refl.
          replace (S (0 + 12) + (List.length r - List.length (trim_start r)))%nat
            with ((List.length r - List.length (trim_start r)) + (1 + 12))%nat by lia.
          rewrite <- !skipn_skipn, Es. exact (skipn_ws r).
        * intros s1 p1 c1. rewrite m_eps. discriminate.
      + rewrite m_eps. cbv beta.
        rewrite m_seq.
        rewrite m_star_ws; [rewrite m_eps | lia |].
        * eexists. split; [reflexivity|].
          assert (Hne : x <> 58%Z) by (intros ->; apply Hx; reflexivity).
          rewrite (proj2 (Z.eqb_neq x 58) Hne).
          replace (0 + 12 + (List.length (x :: r) - List.length (trim_start (x :: r))))%nat
            with ((List.length (x :: r) - List.length (trim_start (x :: r))) + 12)%nat by lia.
          rewrite <- skipn_skipn, Es. exact (skipn_ws (x :: r)).
        * intros s1 p1 c1. rewrite m_eps. discriminate. }
  destruct H as (e & He & Hskip).
  rewrite (replace_one_at0 _ _ _ _ _ He). cbn [app]. rewrite Hskip. reflexivity.
Qed.

(** X15.  The [p] renderer labels a paragraph whose lower-cased text starts
    with "interpretation:", "note:" or "observations" (tested in this
    order), and shows after the label the paragraph with that prefix (in
    whatever case it is written), for "observations" one colon after it,
    and the white space that follows removed; any other paragraph is
    plain. *)
Theorem p_view_labels (text : jstr) :
  p_view text = Some
    (if startsWith (toLowerCase text) (js "interpretation:")
     then Labelled (js "Interpretation:") (trim_start (skipn 15 text))
     else if startsWith (toLowerCase text) (js "note:")
     then Labelled (js "Note:") (trim_start (skipn 5 text))
     else if startsWith (toLowerCase text) (js "observations")
     then Labelled (js "Observations:")
            (trim_start (match skipn 12 text with
                         | x :: r => if Z.eqb x 58 then r else x :: r
                         | [] => []
                         end))
     else PlainPara).
Proof.
  unfold p_view.
  destruct (startsWith (toLowerCase text) (js "interpretation:")) eqn:H1.
  { unfold interpretationPrefix.
    rewrite (replace_prefix_ws (js "interpretation:") text eq_refl eq_refl ltac:(vm_compute; lia) H1). reflexivity. }
  destruct (startsWith (toLowerCase text) (js "note:")) eqn:H2.
  { unfold notePrefix.
    rewrite (replace_prefix_ws (js "note:") text eq_refl eq_refl ltac:(vm_compute; lia) H2). reflexivity. }
  destruct (startsWith (toLowerCase text) (js "observations")) eqn:H3.
  { rewrite (replace_observations _ H3). reflexivity. }
  reflexivity.
Qed.

End ParagraphFacts.

(* ------------------------------------------------------------------ *)
(** ** The section parser: shape of every result *)

Module ReportMoreFacts.
Import Report StringFacts FormatIdemFacts ReportFacts FormatMoreFacts.

Lemma defs_orders (d : sectionDef) : In d sectionDefinitions -> (1 <= def_order d <= 9)%nat.
Proof.
  intros H. simpl in H.
  repeat (destruct H as [<-|H]; [simpl; lia|]). contradiction.
Qed.

Lemma trim_start_nil (s : jstr) : trim_start s = [] -> forallb is_ws s = true.
Proof.
  induction s as [|c s IH]; [reflexivity|]. simpl.
  destruct (is_ws c); [exact IH | discriminate].
Qed.

Lemma trim_nil (s : jstr) : trim s = [] -> forallb is_ws s = true.
Proof.
  unfold trim, trim_end. intros H.
  destruct (trim_start s) as [|c r] eqn:E; [exact (trim_start_nil s E)|].
  exfalso. apply (f_equal (@rev Z)) in H. rewrite rev_involutive in H. simpl in H.
  apply trim_start_nil in H. rewrite forallb_app in H. apply andb_prop in H as [_ H].
  simpl in H. rewrite (trim_start_head s c r E) in H. discriminate.
Qed.

Lemma split_go_no_hash (bol : bool) (s : jstr) :
  forallb (fun c => negb (Z.eqb c 35)) s = true -> split_go (Text bol) s = [s].
Proof.
  revert bol. induction s as [|c s IH]; intros bol H; [reflexivity|].
  simpl in H. apply andb_prop in H as [Hc H]. apply negb_true_iff in Hc.
  assert (Hh : header_at (c :: s) = false).
  { unfold header_at. change (js "##") with [35; 35]%Z. cbn [startsWith]. rewrite Hc. reflexivity. }
  cbn [split_go]. rewrite Hh, andb_false_r. rewrite (IH _ H). reflexivity.
Qed.

Lemma ws_not_hash (s : jstr) :
  forallb is_ws s = true -> forallb (fun c => negb (Z.eqb c 35)) s = true.
Proof.
  induction s as [|c s IH]; [reflexivity|]. simpl. intros H.
  apply andb_prop in H as [Hc H]. rewrite (IH H), andb_true_r.
  destruct (Z.eqb_spec c 35) as [->|]; [discriminate Hc | reflexivity].
Qed.

(** X16.  Whatever the markdown, the sections come sorted by order; each
    is either the single fallback section "full_report" (which the parser
    returns only when no heading matched a definition) or carries the key
    and the order of one of the nine section definitions, so every order
    is between 1 and 9. *)
Theorem parseReportSections_shape (md : jstr) :
  Sorted le (map order (parseReportSections md)) /\
  forall s, In s (parseReportSections md) ->
    (1 <= order s <= 9)%nat /\
    ((pre_sections md = [] /\ s = fallback_section md) \/
     exists d, In d sectionDefinitions /\ key s = def_key d /\ order s = def_order d).
Proof.
  destruct (pre_sections md) as [|x l] eqn:E.
  - unfold parseReportSections. rewrite E. cbn [sort_sections].
    destruct (is_empty (trim md)).
    + split; [constructor | intros s []].
    + split; [repeat constructor|]. intros s [<-|[]].
      split; [cbn; lia | left; split; reflexivity].
  - assert (Hne : pre_sections md <> []) by (rewrite E; discriminate).
    rewrite (parse_found md Hne). split; [apply sort_sorted|].
    intros s Hs. apply (Permutation_in _ (sort_perm _)) in Hs.
    unfold pre_sections in Hs.
    destruct (collect_def _ _ Hs) as (d & D & K & O).
    split; [rewrite O; exact (defs_orders d D)|].
    right. exists d. auto.
Qed.

(** X17.  The parser returns no section exactly when the markdown is
    empty or white space only. *)
Theorem parseReportSections_empty (md : jstr) :
  parseReportSections md = [] <-> forallb is_ws md = true.
Proof.
  split.
  - unfold parseReportSections. destruct (sort_sections (pre_sections md)) as [|x l] eqn:E.
    + destruct (trim md) eqn:T; [intros _; exact (trim_nil md T) | discriminate].
    + discriminate.
  - intros Hws. unfold parseReportSections, pre_sections, split_headers.
    rewrite (split_go_no_hash true md (ws_not_hash md Hws)). cbn [tl collect_sections sort_sections].
    rewrite (trim_ws md Hws). reflexivity.
Qed.

End ReportMoreFacts.
